(** * Request fan-out of the auction server: exchange/utils.go and the
      generic adapter, embedded and verified

    The development follows the Go packages it embeds:
    - [json]: the part of [encoding/json] the code calls (documents, raw
      messages, map encoding and decoding);
    - [openrtb], [openrtb_ext], [config], [pbsmetrics], [adapters]: the
      structs the code reads and writes, with their decoders;
    - [exchange]: [exchange/utils.go];
    - [generic]: [adapters/generic/generic.go].

    Go maps are [gmap]s, slices are lists, a nil-able pointer to a shared
    object is an optional address into an explicit heap, and a function
    that returns [(T, error)] returns a [result]. *)

From Stdlib Require Import ZArith String List DecimalString.
From stdpp Require Import base option list gmap strings.

Set Warnings "-register-all".
Set Default Proof Using "Type".

(** ** Go errors and results *)

(** The dynamic types of the [error] values the code creates or forwards.
    Each carries the text its [Error()] method returns. *)
Inductive error : Type :=
| SyntaxError (msg : string)          (* *json.SyntaxError *)
| UnmarshalTypeError (msg : string)   (* *json.UnmarshalTypeError *)
| MarshalerError (msg : string)       (* *json.MarshalerError *)
| ErrorString (msg : string)          (* fmt.Errorf, errors.New *)
| BadInput (msg : string)             (* *errortypes.BadInput *)
| BadServerResponse (msg : string).   (* *errortypes.BadServerResponse *)

Definition Error (e : error) : string :=
  match e with
  | SyntaxError msg | UnmarshalTypeError msg | MarshalerError msg
  | ErrorString msg | BadInput msg | BadServerResponse msg => msg
  end.

(** A Go pair [(T, error)] of which exactly one side is meaningful. *)
Inductive result (A : Type) : Type :=
| Ok (a : A)
| Err (e : error).
Arguments Ok {A} a.
Arguments Err {A} e.

Definition rbind {A B : Type} (r : result A) (k : A → result B) : result B :=
  match r with
  | Ok a => k a
  | Err e => Err e
  end.

Notation "'try' x ':=' r 'in' k" := (rbind r (λ x, k))
  (at level 10, x name, r at level 100, k at level 200,
   format "'[v' 'try'  x  ':='  r  'in' '/' k ']'").

Definition is_Ok {A : Type} (r : result A) : Prop := ∃ a, r = Ok a.
Definition is_Err {A : Type} (r : result A) : Prop := ∃ e, r = Err e.

(** A decoding step applied to every element of a slice: the decoded
    elements, or the first error. *)
Fixpoint collect {A B : Type} (f : A → result B) (l : list A) : result (list B) :=
  match l with
  | [] => Ok []
  | x :: l' => try y := f x in try ys := collect f l' in Ok (y :: ys)
  end.

(** The [%d] verb of [fmt], on an [int]. *)
Definition itoa (n : Z) : string := NilZero.string_of_int (Z.to_int n).

(** The double-quote character, for messages that quote a value. *)
Definition dquote : string := String (Ascii.ascii_of_nat 34) EmptyString.

(** ** encoding/json *)

Module json.

(** A JSON text, by its parse tree. Objects are finite maps: the order of
    the members of an object and the layout of the text are not
    represented. Numbers are the integer literals. *)
Inductive value : Type :=
| JNull
| JBool (b : bool)
| JNum (n : Z)
| JStr (s : string)
| JArr (l : list value)
| JObj (m : gmap string value).

(** [json.RawMessage] and [[]byte] bodies handed to the decoder: the nil
    slice, bytes that do not scan as a JSON text (the empty slice among
    them), or the bytes of a JSON text. *)
Inductive RawMessage : Type :=
| raw_nil
| raw_bad (bytes : string)
| raw_doc (v : value).

(** [x == nil] *)
Definition is_nil (x : RawMessage) : bool :=
  match x with raw_nil => true | _ => false end.

(** [len(x) == 0]; a JSON text has at least one byte. *)
Definition len0 (x : RawMessage) : bool :=
  match x with
  | raw_nil => true
  | raw_bad bytes => bool_decide (bytes = EmptyString)
  | raw_doc _ => false
  end.

(** The word [encoding/json] uses for the kind of a JSON value in its
    type-mismatch messages. *)
Definition kind (v : value) : string :=
  match v with
  | JNull => "null"
  | JBool _ => "bool"
  | JNum _ => "number"
  | JStr _ => "string"
  | JArr _ => "array"
  | JObj _ => "object"
  end.

Definition mismatch (v : value) (gotype : string) : error :=
  UnmarshalTypeError
    ("json: cannot unmarshal " +:+ kind v +:+ " into Go value of type " +:+ gotype).

(** The scanner of [json.Unmarshal]: the document of the bytes, or a syntax
    error. *)
Definition scan (data : RawMessage) : result value :=
  match data with
  | raw_nil => Err (SyntaxError "unexpected end of JSON input")
  | raw_bad bytes =>
      if bool_decide (bytes = EmptyString)
      then Err (SyntaxError "unexpected end of JSON input")
      else Err (SyntaxError ("invalid character in " +:+ bytes))
  | raw_doc v => Ok v
  end.

(** [json.Unmarshal(data, &m)] for a nil [m] of type
    [map[string]json.RawMessage]: one level of decoding, every member kept
    as the bytes of its value. The literal [null] leaves the map nil, which
    reads like the empty map. *)
Definition Unmarshal_map (data : RawMessage) : result (gmap string RawMessage) :=
  try v := scan data in
  match v with
  | JNull => Ok ∅
  | JObj m => Ok (raw_doc <$> m)
  | _ => Err (mismatch v "map[string]json.RawMessage")
  end.

(** [RawMessage.MarshalJSON] followed by the validity check of the encoder:
    a nil message is written as [null], bytes that do not scan are
    refused. *)
Definition encodable (x : RawMessage) : bool :=
  match x with raw_bad _ => false | _ => true end.

Definition to_value (x : RawMessage) : value :=
  match x with raw_doc v => v | _ => JNull end.

(** [json.Marshal(m)] for a non-nil [m] of type
    [map[string]json.RawMessage]. *)
Definition Marshal_map (m : gmap string RawMessage) : result RawMessage :=
  if bool_decide (map_Forall (λ _ x, encodable x = true) m)
  then Ok (raw_doc (JObj (to_value <$> m)))
  else Err (MarshalerError "json: error calling MarshalJSON for type json.RawMessage").

(** Decoders of struct fields: an absent member and the literal [null]
    leave the zero value of the field. *)
Definition field_string (gotype : string) (m : gmap string value) (k : string)
  : result string :=
  match m !! k with
  | None | Some JNull => Ok EmptyString
  | Some (JStr s) => Ok s
  | Some v => Err (mismatch v gotype)
  end.

Definition field_int (gotype : string) (m : gmap string value) (k : string)
  : result Z :=
  match m !! k with
  | None | Some JNull => Ok 0%Z
  | Some (JNum n) => Ok n
  | Some v => Err (mismatch v gotype)
  end.

(** A field of pointer-to-struct type: nil when absent or [null]. *)
Definition field_ptr {A : Type} (gotype : string)
    (dec : gmap string value → result A) (m : gmap string value) (k : string)
  : result (option A) :=
  match m !! k with
  | None | Some JNull => Ok None
  | Some (JObj o) => try a := dec o in Ok (Some a)
  | Some v => Err (mismatch v gotype)
  end.

(** A field of slice-of-struct type. *)
Definition field_slice {A : Type} (gotype : string)
    (dec : gmap string value → result A) (m : gmap string value) (k : string)
  : result (list A) :=
  match m !! k with
  | None | Some JNull => Ok []
  | Some (JArr l) =>
      collect (λ v, match v with
                    | JObj o => dec o
                    | JNull => dec ∅
                    | _ => Err (mismatch v gotype)
                    end) l
  | Some v => Err (mismatch v gotype)
  end.

(** A struct decoder applied to the top-level document. *)
Definition Unmarshal_struct {A : Type} (gotype : string) (zero : A)
    (dec : gmap string value → result A) (data : RawMessage) : result A :=
  try v := scan data in
  match v with
  | JNull => Ok zero
  | JObj m => dec m
  | _ => Err (mismatch v gotype)
  end.

(** [omitempty]: the member is written only for a non-zero field. *)
Definition omitempty (k : string) (o : option value) (m : gmap string value)
  : gmap string value :=
  match o with
  | Some v => <[k := v]> m
  | None => m
  end.

Definition nonempty_string (s : string) : option value :=
  if bool_decide (s = EmptyString) then None else Some (JStr s).

(** A message that holds a JSON text, and a map of such messages: what a
    successful decoding yields. *)
Definition is_doc (x : RawMessage) : Prop := ∃ v, x = raw_doc v.
Definition docs (m : gmap string RawMessage) : Prop :=
  map_Forall (λ _ x, is_doc x) m.

End json.

(** ** The OpenRTB objects the code touches *)

Module openrtb.
Import json.

(** The fields of each struct that the embedded functions read or write,
    with a few others that show what a struct copy carries along. *)
Record Banner : Type := { Banner_W : Z; Banner_H : Z }.
Record Video : Type := { Video_MIMEs : list string }.
Record App : Type := { App_ID : string }.

Record Imp : Type := {
  Imp_ID : string;
  Imp_Banner : option Banner;
  Imp_Video : option Video;
  Imp_Ext : RawMessage
}.

Record User : Type := {
  User_ID : string;
  User_BuyerUID : string;
  User_Ext : RawMessage
}.

Record Source : Type := {
  Source_FD : Z;
  Source_TID : string;
  Source_PChain : string;
  Source_Ext : RawMessage
}.

(** Addresses of the [User] and [Source] objects a request points to. *)
Definition ptr : Type := nat.

Record BidRequest : Type := {
  Req_ID : string;
  Req_Imp : list Imp;
  Req_App : option App;
  Req_User : option ptr;
  Req_Source : option ptr;
  Req_Test : Z;
  Req_Ext : RawMessage
}.

Record Bid : Type := {
  Bid_ID : string;
  Bid_ImpID : string;
  Bid_AdM : string
}.

Record SeatBid : Type := {
  SeatBid_Bid : list Bid;
  SeatBid_Seat : string
}.

Record BidResponse : Type := {
  Resp_ID : string;
  Resp_SeatBid : list SeatBid;
  Resp_Cur : string
}.

(** [imp.Ext = x] on a copy of [imp]. *)
Definition Imp_with_Ext (imp : Imp) (x : RawMessage) : Imp :=
  {| Imp_ID := Imp_ID imp; Imp_Banner := Imp_Banner imp;
     Imp_Video := Imp_Video imp; Imp_Ext := x |}.

Definition User_with_Ext (u : User) (x : RawMessage) : User :=
  {| User_ID := User_ID u; User_BuyerUID := User_BuyerUID u; User_Ext := x |}.

Definition User_with_BuyerUID (u : User) (id : string) : User :=
  {| User_ID := User_ID u; User_BuyerUID := id; User_Ext := User_Ext u |}.

Definition Source_with_Ext (s : Source) (x : RawMessage) : Source :=
  {| Source_FD := Source_FD s; Source_TID := Source_TID s;
     Source_PChain := Source_PChain s; Source_Ext := x |}.

Definition Req_with_Imp (r : BidRequest) (imps : list Imp) : BidRequest :=
  {| Req_ID := Req_ID r; Req_Imp := imps; Req_App := Req_App r;
     Req_User := Req_User r; Req_Source := Req_Source r;
     Req_Test := Req_Test r; Req_Ext := Req_Ext r |}.

Definition Req_with_Ext (r : BidRequest) (x : RawMessage) : BidRequest :=
  {| Req_ID := Req_ID r; Req_Imp := Req_Imp r; Req_App := Req_App r;
     Req_User := Req_User r; Req_Source := Req_Source r;
     Req_Test := Req_Test r; Req_Ext := x |}.

Definition Req_with_User (r : BidRequest) (u : option ptr) : BidRequest :=
  {| Req_ID := Req_ID r; Req_Imp := Req_Imp r; Req_App := Req_App r;
     Req_User := u; Req_Source := Req_Source r;
     Req_Test := Req_Test r; Req_Ext := Req_Ext r |}.

Definition Req_with_Source (r : BidRequest) (s : option ptr) : BidRequest :=
  {| Req_ID := Req_ID r; Req_Imp := Req_Imp r; Req_App := Req_App r;
     Req_User := Req_User r; Req_Source := s;
     Req_Test := Req_Test r; Req_Ext := Req_Ext r |}.

(** [openrtb.User{}], [openrtb.Source{}] *)
Definition zero_User : User :=
  {| User_ID := EmptyString; User_BuyerUID := EmptyString; User_Ext := raw_nil |}.
Definition zero_Source : Source :=
  {| Source_FD := 0; Source_TID := EmptyString; Source_PChain := EmptyString;
     Source_Ext := raw_nil |}.

(** [json.Unmarshal(data, &bidResp)] for a zero [openrtb.BidResponse]. *)
Definition decode_Bid (m : gmap string value) : result Bid :=
  try id := field_string "openrtb.Bid.id" m "id" in
  try impid := field_string "openrtb.Bid.impid" m "impid" in
  try adm := field_string "openrtb.Bid.adm" m "adm" in
  Ok {| Bid_ID := id; Bid_ImpID := impid; Bid_AdM := adm |}.

Definition decode_SeatBid (m : gmap string value) : result SeatBid :=
  try bids := field_slice "openrtb.SeatBid.bid" decode_Bid m "bid" in
  try seat := field_string "openrtb.SeatBid.seat" m "seat" in
  Ok {| SeatBid_Bid := bids; SeatBid_Seat := seat |}.

Definition decode_BidResponse (m : gmap string value) : result BidResponse :=
  try id := field_string "openrtb.BidResponse.id" m "id" in
  try seatbid := field_slice "openrtb.BidResponse.seatbid" decode_SeatBid m "seatbid" in
  try cur := field_string "openrtb.BidResponse.cur" m "cur" in
  Ok {| Resp_ID := id; Resp_SeatBid := seatbid; Resp_Cur := cur |}.

Definition Unmarshal_BidResponse (data : RawMessage) : result BidResponse :=
  Unmarshal_struct "openrtb.BidResponse"
    {| Resp_ID := EmptyString; Resp_SeatBid := []; Resp_Cur := EmptyString |}
    decode_BidResponse data.

End openrtb.

(** ** The shared objects of a request *)

(** The [User] and [Source] objects live in a store and requests hold their
    addresses, so that a copy of a request struct shares them with the
    original as the Go copy does. An allocation takes the next free
    address. *)
Module store.
Import openrtb.

Record Heap : Type := {
  users : list User;
  sources : list Source
}.

(** Code that reads and writes the store. *)
Definition M (A : Type) : Type := Heap → A * Heap.

Definition ret {A : Type} (a : A) : M A := λ h, (a, h).
Definition bind {A B : Type} (c : M A) (k : A → M B) : M B :=
  λ h, let '(a, h') := c h in k a h'.

Definition get_user (p : ptr) : M (option User) := λ h, (users h !! p, h).
Definition get_source (p : ptr) : M (option Source) := λ h, (sources h !! p, h).

(** [*p = u] *)
Definition set_user (p : ptr) (u : User) : M unit :=
  λ h, (tt, {| users := <[p := u]> (users h); sources := sources h |}).
Definition set_source (p : ptr) (s : Source) : M unit :=
  λ h, (tt, {| users := users h; sources := <[p := s]> (sources h) |}).

(** [&openrtb.User{...}], [&clone] *)
Definition new_user (u : User) : M ptr :=
  λ h, (length (users h), {| users := users h ++ [u]; sources := sources h |}).
Definition new_source (s : Source) : M ptr :=
  λ h, (length (sources h), {| users := users h; sources := sources h ++ [s] |}).

End store.

Notation "'do' x '←' c ';' k" := (store.bind c (λ x, k))
  (at level 10, x name, c at level 100, k at level 200,
   format "'[v' 'do'  x  '←'  c ';' '/' k ']'").

(** ** Extension structs of package openrtb_ext *)

(** The struct declarations of this package are not part of the sources at
    hand; each record below has the fields the embedded code reads, under
    the member names the spec gives them. *)
Module openrtb_ext.
Import json.

Definition BidderName : Type := string.

Inductive BidType : Type :=
| BidTypeBanner
| BidTypeVideo
| BidTypeAudio
| BidTypeNative.

Definition PrebidExtKey : string := "prebid".
Definition FirstPartyDataContextExtKey : string := "context".

(** Modelled from the spec: [ExtImpPrebid], the shared [prebid] block of an
    impression extension, of which the code reads the [bidder] field: the
    declared per-bidder parameter set, nil when the block has none. *)
Record ExtImpPrebid : Type := {
  Bidder : option (gmap string RawMessage)
}.

Definition decode_ExtImpPrebid (m : gmap string value) : result ExtImpPrebid :=
  match m !! "bidder" with
  | None | Some JNull => Ok {| Bidder := None |}
  | Some (JObj b) => Ok {| Bidder := Some (raw_doc <$> b) |}
  | Some v => Err (mismatch v "map[string]json.RawMessage")
  end.

Definition Unmarshal_ExtImpPrebid (data : RawMessage) : result ExtImpPrebid :=
  Unmarshal_struct "openrtb_ext.ExtImpPrebid" {| Bidder := None |}
    decode_ExtImpPrebid data.

(** Modelled from the spec: [ExtUser], the user extension with its members
    [consent], [prebid.buyeruids] and [digitrust]; all three are written
    with [omitempty]. *)
Record ExtUserPrebid : Type := {
  BuyerUIDs : gmap string string
}.

Record ExtUserDigiTrust : Type := {
  DigiTrust_ID : string;
  DigiTrust_KeyV : Z;
  DigiTrust_Pref : Z
}.

Record ExtUser : Type := {
  Consent : string;
  Prebid : option ExtUserPrebid;
  DigiTrust : option ExtUserDigiTrust
}.

(** A member of type [map[string]string]. *)
Definition as_string (v : value) : option string :=
  match v with
  | JStr s => Some s
  | JNull => Some EmptyString
  | _ => None
  end.

Definition decode_string_map (gotype : string) (m : gmap string value) (k : string)
  : result (gmap string string) :=
  match m !! k with
  | None | Some JNull => Ok ∅
  | Some (JObj o) =>
      if bool_decide (map_Forall (λ _ v, is_Some (as_string v)) o)
      then Ok (omap as_string o)
      else Err (UnmarshalTypeError
                  ("json: cannot unmarshal into Go value of type " +:+ gotype))
  | Some v => Err (mismatch v gotype)
  end.

Definition decode_ExtUserPrebid (m : gmap string value) : result ExtUserPrebid :=
  try ids := decode_string_map "map[string]string" m "buyeruids" in
  Ok {| BuyerUIDs := ids |}.

Definition decode_ExtUserDigiTrust (m : gmap string value) : result ExtUserDigiTrust :=
  try id := field_string "openrtb_ext.ExtUserDigiTrust.id" m "id" in
  try keyv := field_int "openrtb_ext.ExtUserDigiTrust.keyv" m "keyv" in
  try pref := field_int "openrtb_ext.ExtUserDigiTrust.pref" m "pref" in
  Ok {| DigiTrust_ID := id; DigiTrust_KeyV := keyv; DigiTrust_Pref := pref |}.

Definition decode_ExtUser (m : gmap string value) : result ExtUser :=
  try consent := field_string "openrtb_ext.ExtUser.consent" m "consent" in
  try prebid := field_ptr "openrtb_ext.ExtUserPrebid" decode_ExtUserPrebid m "prebid" in
  try digitrust :=
    field_ptr "openrtb_ext.ExtUserDigiTrust" decode_ExtUserDigiTrust m "digitrust" in
  Ok {| Consent := consent; Prebid := prebid; DigiTrust := digitrust |}.

Definition zero_ExtUser : ExtUser :=
  {| Consent := EmptyString; Prebid := None; DigiTrust := None |}.

(** [json.Unmarshal(data, &userExt)] for a zero [userExt]. *)
Definition Unmarshal_ExtUser (data : RawMessage) : result ExtUser :=
  Unmarshal_struct "openrtb_ext.ExtUser" zero_ExtUser decode_ExtUser data.

Definition encode_ExtUserPrebid (p : ExtUserPrebid) : value :=
  JObj (omitempty "buyeruids"
          (if bool_decide (BuyerUIDs p = ∅) then None
           else Some (JObj (JStr <$> BuyerUIDs p))) ∅).

Definition encode_ExtUserDigiTrust (d : ExtUserDigiTrust) : value :=
  JObj (<["id" := JStr (DigiTrust_ID d)]>
        (<["keyv" := JNum (DigiTrust_KeyV d)]>
         (<["pref" := JNum (DigiTrust_Pref d)]> ∅))).

(** [json.Marshal(userExt)] *)
Definition Marshal_ExtUser (e : ExtUser) : result RawMessage :=
  Ok (raw_doc (JObj
    (omitempty "consent" (nonempty_string (Consent e))
    (omitempty "prebid" (encode_ExtUserPrebid <$> Prebid e)
    (omitempty "digitrust" (encode_ExtUserDigiTrust <$> DigiTrust e) ∅))))).

(** Modelled from the spec: a supply chain, the ordered list of the
    intermediary nodes of the distribution path with its completeness flag
    and version, and the association of a chain with the bidders it is
    declared for. *)
Record ExtRequestPrebidSChainSChainNode : Type := {
  ASI : string;
  SID : string;
  HP : Z
}.

Record ExtRequestPrebidSChainSChain : Type := {
  Complete : Z;
  Nodes : list ExtRequestPrebidSChainSChainNode;
  Ver : string
}.

Record ExtRequestPrebidSChain : Type := {
  Bidders : list string;
  SChain : ExtRequestPrebidSChainSChain
}.

Definition encode_SChainNode (n : ExtRequestPrebidSChainSChainNode) : value :=
  JObj (<["asi" := JStr (ASI n)]>
        (<["sid" := JStr (SID n)]>
         (<["hp" := JNum (HP n)]> ∅))).

Definition encode_SChainSChain (c : ExtRequestPrebidSChainSChain) : value :=
  JObj (<["complete" := JNum (Complete c)]>
        (<["nodes" := JArr (encode_SChainNode <$> Nodes c)]>
         (<["ver" := JStr (Ver c)]> ∅))).

(** The member [bidders] is written with [omitempty], [schain] always. *)
Definition encode_SChain (w : ExtRequestPrebidSChain) : value :=
  JObj (omitempty "bidders"
          (match Bidders w with
           | [] => None
           | bs => Some (JArr (JStr <$> bs))
           end)
          (<["schain" := encode_SChainSChain (SChain w)]> ∅)).

(** [json.Marshal(schain)] *)
Definition Marshal_SChain (w : ExtRequestPrebidSChain) : result RawMessage :=
  Ok (raw_doc (encode_SChain w)).

(** Modelled from the spec: the request extension with the [prebid]
    members the embedded code reads: [aliases], [cache.bids] and
    [cache.vastxml] with their optional [returnCreative], [schains] and
    [debug]. *)
Record ExtRequestPrebidCacheBids : Type := {
  Bids_ReturnCreative : option bool
}.

Record ExtRequestPrebidCacheVAST : Type := {
  VAST_ReturnCreative : option bool
}.

Record ExtRequestPrebidCache : Type := {
  Bids : option ExtRequestPrebidCacheBids;
  VastXML : option ExtRequestPrebidCacheVAST
}.

Record ExtRequestPrebid : Type := {
  Aliases : gmap string string;
  Cache : option ExtRequestPrebidCache;
  SChains : list ExtRequestPrebidSChain;
  Debug : bool
}.

Record ExtRequest : Type := {
  ReqPrebid : ExtRequestPrebid
}.

Definition encode_Cache (c : ExtRequestPrebidCache) : value :=
  JObj (omitempty "bids"
          ((λ b, JObj (omitempty "returnCreative" (JBool <$> Bids_ReturnCreative b) ∅))
             <$> Bids c)
       (omitempty "vastxml"
          ((λ b, JObj (omitempty "returnCreative" (JBool <$> VAST_ReturnCreative b) ∅))
             <$> VastXML c) ∅)).

Definition encode_ExtRequestPrebid (p : ExtRequestPrebid) : value :=
  JObj (omitempty "aliases"
          (if bool_decide (Aliases p = ∅) then None
           else Some (JObj (JStr <$> Aliases p)))
       (omitempty "cache" (encode_Cache <$> Cache p)
       (omitempty "schains"
          (match SChains p with
           | [] => None
           | ws => Some (JArr (encode_SChain <$> ws))
           end)
       (omitempty "debug" (if Debug p then Some (JBool true) else None) ∅)))).

(** [json.Marshal(ext)] *)
Definition Marshal_ExtRequest (e : ExtRequest) : result RawMessage :=
  Ok (raw_doc (JObj (<["prebid" := encode_ExtRequestPrebid (ReqPrebid e)]> ∅))).

End openrtb_ext.

(** ** Packages config, pbsmetrics and adapters *)

Module config.

Inductive IntegrationType : Type :=
| IntegrationTypeAMP
| IntegrationTypeApp
| IntegrationTypeVideo
| IntegrationTypeWeb.

(** The account settings of the two regimes are read through their method
    [EnabledForIntegrationType], which is declared outside the sources at
    hand: an account is represented by what the method returns for each
    integration type, nil ([None]) when the account sets no override. *)
Record AccountGDPR : Type := {
  GDPR_EnabledForIntegrationType : IntegrationType → option bool
}.

Record AccountCCPA : Type := {
  CCPA_EnabledForIntegrationType : IntegrationType → option bool
}.

Record Account : Type := {
  Account_GDPR : AccountGDPR;
  Account_CCPA : AccountCCPA
}.

Record GDPR : Type := { GDPR_Enabled : bool }.
Record CCPA : Type := { CCPA_Enforce : bool }.
Record LMT : Type := { LMT_Enforce : bool }.

Record Privacy : Type := {
  Privacy_GDPR : GDPR;
  Privacy_CCPA : CCPA;
  Privacy_LMT : LMT
}.

End config.

Module pbsmetrics.

Inductive DemandSource : Type :=
| DemandWeb
| DemandApp
| DemandUnknown.

Inductive RequestType : Type :=
| ReqTypeLegacy
| ReqTypeORTB2Web
| ReqTypeORTB2App
| ReqTypeAMP
| ReqTypeVideo.

Inductive CookieFlag : Type :=
| CookieFlagYes
| CookieFlagNo
| CookieFlagUnknown.

Inductive AdapterBid : Type :=
| AdapterBidPresent
| AdapterBidNone.

Record Labels : Type := {
  Labels_Source : DemandSource;
  Labels_RType : RequestType;
  Labels_PubID : string;
  Labels_CookieFlag : CookieFlag
}.

Record AdapterLabels : Type := {
  AdapterLabels_Source : DemandSource;
  AdapterLabels_RType : RequestType;
  AdapterLabels_Adapter : openrtb_ext.BidderName;
  AdapterLabels_PubID : string;
  AdapterLabels_CookieFlag : CookieFlag;
  AdapterLabels_AdapterBids : AdapterBid
}.

Definition AdapterLabels_with_CookieFlag (l : AdapterLabels) (f : CookieFlag)
  : AdapterLabels :=
  {| AdapterLabels_Source := AdapterLabels_Source l;
     AdapterLabels_RType := AdapterLabels_RType l;
     AdapterLabels_Adapter := AdapterLabels_Adapter l;
     AdapterLabels_PubID := AdapterLabels_PubID l;
     AdapterLabels_CookieFlag := f;
     AdapterLabels_AdapterBids := AdapterLabels_AdapterBids l |}.

End pbsmetrics.

Module adapters.

Record RequestData : Type := {
  Method : string;
  Uri : string;
  Body : json.RawMessage
}.

Record ResponseData : Type := {
  StatusCode : Z;
  Resp_Body : json.RawMessage
}.

Record TypedBid : Type := {
  TypedBid_Bid : openrtb.Bid;
  TypedBid_BidType : openrtb_ext.BidType
}.

Record BidderResponse : Type := {
  BidderResponse_Bids : list TypedBid
}.

(** [adapters.NewBidderResponseWithBidsCapacity(n)]: a response with no
    bids yet. *)
Definition NewBidderResponseWithBidsCapacity (capacity : nat) : BidderResponse :=
  {| BidderResponse_Bids := [] |}.

End adapters.

(** ** exchange/utils.go *)

Module exchange.
Import json openrtb openrtb_ext store.

(** Go visits the entries of a map in an unspecified order: a
    [for k, v := range m] loop runs over some enumeration of [m]. *)
Class RangeOrder : Type := {
  range : ∀ {V : Type}, gmap string V → list (string * V);
  range_perm : ∀ (V : Type) (m : gmap string V), range m ≡ₚ map_to_list m
}.

(** The interface [IdFetcher] of the user-sync store. *)
Record IdFetcher : Type := {
  GetId : BidderName → string * bool
}.

(** The fields of [AuctionRequest] and [BidderRequest] that
    [getAuctionBidderRequests] reads and fills. *)
Record AuctionRequest : Type := {
  AR_BidRequest : BidRequest;
  AR_Ext : option ExtRequest;
  AR_Aliases : gmap string string;
  AR_UserSyncs : IdFetcher;
  AR_LegacyLabels : pbsmetrics.Labels
}.

Record BidderRequest : Type := {
  BR_BidderName : BidderName;
  BR_BidderCoreName : BidderName;
  BR_BidRequest : BidRequest;
  BR_BidderLabels : pbsmetrics.AdapterLabels
}.

Record extCacheInstructions : Type := {
  cacheBids : bool;
  cacheVAST : bool;
  returnCreative : bool
}.

Definition multiple_schains (bidder : string) : error :=
  ErrorString ("request.ext.prebid.schains contains multiple schains for bidder "
               +:+ bidder +:+ "; it must contain no more than one per bidder.").

(** The inner loop of [BidderToPrebidSChains], over the bidders of one
    association. *)
Fixpoint schain_bidders (sChain : ExtRequestPrebidSChainSChain)
    (bidders : list string)
    (bidderToSChains : gmap string ExtRequestPrebidSChainSChain)
  : result (gmap string ExtRequestPrebidSChainSChain) :=
  match bidders with
  | [] => Ok bidderToSChains
  | bidder :: rest =>
      match bidderToSChains !! bidder with
      | Some _ => Err (multiple_schains bidder)
      | None => schain_bidders sChain rest (<[bidder := sChain]> bidderToSChains)
      end
  end.

(** Its outer loop, over the associations of the request. *)
Fixpoint schain_wrappers (sChains : list ExtRequestPrebidSChain)
    (bidderToSChains : gmap string ExtRequestPrebidSChainSChain)
  : result (gmap string ExtRequestPrebidSChainSChain) :=
  match sChains with
  | [] => Ok bidderToSChains
  | schainWrapper :: rest =>
      try m := schain_bidders (SChain schainWrapper) (Bidders schainWrapper)
                 bidderToSChains in
      schain_wrappers rest m
  end.

Definition BidderToPrebidSChains (req : option ExtRequest)
  : result (gmap string ExtRequestPrebidSChainSChain) :=
  match req with
  | Some req => schain_wrappers (SChains (ReqPrebid req)) ∅
  | None => Ok ∅
  end.

Definition gdprEnabled (account : config.Account) (privacyConfig : config.Privacy)
    (integrationType : config.IntegrationType) : bool :=
  match config.GDPR_EnabledForIntegrationType (config.Account_GDPR account)
          integrationType with
  | Some accountEnabled => accountEnabled
  | None => config.GDPR_Enabled (config.Privacy_GDPR privacyConfig)
  end.

Definition ccpaEnabled (account : config.Account) (privacyConfig : config.Privacy)
    (requestType : config.IntegrationType) : bool :=
  match config.CCPA_EnabledForIntegrationType (config.Account_CCPA account)
          requestType with
  | Some accountEnabled => accountEnabled
  | None => config.CCPA_Enforce (config.Privacy_CCPA privacyConfig)
  end.

Definition getExtJson (req : BidRequest) (unpackedExt : option ExtRequest)
  : result RawMessage :=
  match unpackedExt with
  | Some ext =>
      if len0 (Req_Ext req) then Ok (raw_bad EmptyString)
      else
        let p := ReqPrebid ext in
        Marshal_ExtRequest
          {| ReqPrebid := {| Aliases := Aliases p; Cache := Cache p;
                             SChains := []; Debug := Debug p |} |}
  | None => Ok (raw_bad EmptyString)
  end.

Definition sChainWildCard : string := "*".

(** [prepareSource] works on the request copy it is handed and on the
    [Source] object that copy points to; it yields the request copy after
    the call. *)
Definition prepareSource (req : BidRequest) (bidder : string)
    (sChainsByBidder : gmap string ExtRequestPrebidSChainSChain) : M BidRequest :=
  let wildCardSChain := sChainsByBidder !! sChainWildCard in
  let bidderSChain := sChainsByBidder !! bidder in
  match bidderSChain, wildCardSChain with
  | None, None => ret req
  | _, _ =>
      match (match bidderSChain with
             | Some c => Some c
             | None => wildCardSChain
             end) with
      | None => ret req
      | Some selectedSChain =>
          do src ← match Req_Source req with
                   | None => new_source zero_Source
                   | Some p => ret p
                   end;
          let req := Req_with_Source req (Some src) in
          match Marshal_SChain {| Bidders := []; SChain := selectedSChain |} with
          | Ok sourceExt =>
              do s ← get_source src;
              match s with
              | Some s =>
                  do _ ← set_source src (Source_with_Ext s sourceExt);
                  ret req
              | None => ret req
              end
          | Err _ => ret req
          end
      end
  end.

(** [extractBuyerUIDs] reads and rewrites the [User] object behind the
    pointer. A nil map result reads like the empty map. *)
Definition extractBuyerUIDs (user : option ptr) : M (result (gmap string string)) :=
  match user with
  | None => ret (Ok ∅)
  | Some p =>
      do u ← get_user p;
      match u with
      | None => ret (Ok ∅)
      | Some u =>
          if len0 (User_Ext u) then ret (Ok ∅)
          else
            match Unmarshal_ExtUser (User_Ext u) with
            | Err err => ret (Err err)
            | Ok userExt =>
                match Prebid userExt with
                | None => ret (Ok ∅)
                | Some prebid =>
                    let buyerUIDs := BuyerUIDs prebid in
                    let userExt := {| Consent := Consent userExt; Prebid := None;
                                      DigiTrust := DigiTrust userExt |} in
                    if negb (bool_decide (Consent userExt = EmptyString))
                       || bool_decide (is_Some (DigiTrust userExt))
                    then
                      match Marshal_ExtUser userExt with
                      | Err err => ret (Err err)
                      | Ok newUserExtBytes =>
                          do _ ← set_user p (User_with_Ext u newUserExtBytes);
                          ret (Ok buyerUIDs)
                      end
                    else
                      do _ ← set_user p (User_with_Ext u raw_nil);
                      ret (Ok buyerUIDs)
                end
            end
      end
  end.

Definition unpack_error (i : nat) (err : error) : error :=
  ErrorString ("Error unpacking extensions for Imp[" +:+ itoa (Z.of_nat i)
               +:+ "]: " +:+ Error err).

(** [parseImpExts], with the index of the impression at the head of the
    list. *)
Fixpoint parseImpExts_from (i : nat) (imps : list Imp)
  : result (list (gmap string RawMessage)) :=
  match imps with
  | [] => Ok []
  | imp :: rest =>
      match Unmarshal_map (Imp_Ext imp) with
      | Err err => Err (unpack_error i err)
      | Ok ext =>
          try exts := parseImpExts_from (S i) rest in
          Ok (ext :: exts)
      end
  end.

Definition parseImpExts (imps : list Imp) : result (list (gmap string RawMessage)) :=
  parseImpExts_from 0 imps.

Section Partition.
Context `{RangeOrder}.

(** The first part of [sanitizedImpCopy]: the [prebid] block without its
    [bidder] field, and the error of the re-encoding if there is one (the
    assignment then leaves the block nil). *)
Definition strip_bidder (rawPrebidExt : RawMessage) : RawMessage * list error :=
  match Unmarshal_map rawPrebidExt with
  | Ok prebidExt =>
      match prebidExt !! "bidder" with
      | Some _ =>
          match Marshal_map (delete "bidder" prebidExt) with
          | Ok raw => (raw, [])
          | Err err => (raw_nil, [err])
          end
      | None => (rawPrebidExt, [])
      end
  | Err _ => (rawPrebidExt, [])
  end.

(** The extension object of one copy. *)
Definition newExt (ext rawPrebidExt firstPartyDataContext : RawMessage)
  : gmap string RawMessage :=
  let newExt := <["bidder" := ext]> ∅ in
  let newExt := if is_nil rawPrebidExt then newExt
                else <[PrebidExtKey := rawPrebidExt]> newExt in
  if len0 firstPartyDataContext then newExt
  else <[FirstPartyDataContextExtKey := firstPartyDataContext]> newExt.

(** One round of the loop of [sanitizedImpCopy] over [bidderExts]. *)
Definition sanitize_step (imp : Imp) (rawPrebidExt firstPartyDataContext : RawMessage)
    (acc : gmap string (list Imp) * list error) (entry : string * RawMessage)
  : gmap string (list Imp) * list error :=
  let '(out, errs) := acc in
  let '(bidder, ext) := entry in
  if bool_decide (bidder = PrebidExtKey ∨ bidder = FirstPartyDataContextExtKey)
  then acc
  else
    match Marshal_map (newExt ext rawPrebidExt firstPartyDataContext) with
    | Err err => (out, errs ++ [err])
    | Ok rawExt =>
        let otherImps := default [] (out !! bidder) in
        (<[bidder := otherImps ++ [Imp_with_Ext imp rawExt]]> out, errs)
    end.

Definition sanitizedImpCopy (imp : Imp) (bidderExts : gmap string RawMessage)
    (rawPrebidExt firstPartyDataContext : RawMessage)
    (out : gmap string (list Imp)) : gmap string (list Imp) * list error :=
  let '(rawPrebidExt, errs) := strip_bidder rawPrebidExt in
  foldl (sanitize_step imp rawPrebidExt firstPartyDataContext) (out, errs)
    (range bidderExts).

(** The bidder parameters [splitImps] hands to [sanitizedImpCopy]: the set
    declared under [prebid.bidder] when the block decodes and has one, the
    top-level members of the extension otherwise. *)
Definition bidderExts_of (impExt : gmap string RawMessage) : gmap string RawMessage :=
  match impExt !! PrebidExtKey with
  | Some rawPrebidExt =>
      match Unmarshal_ExtImpPrebid rawPrebidExt with
      | Ok prebidExt =>
          match Bidder prebidExt with
          | Some bidders => bidders
          | None => impExt
          end
      | Err _ => impExt
      end
  | None => impExt
  end.

(** One round of the loop of [splitImps]. *)
Definition splitImps_step (acc : gmap string (list Imp) * list error)
    (entry : Imp * gmap string RawMessage) : gmap string (list Imp) * list error :=
  let '(splitImps, errList) := acc in
  let '(imp, impExt) := entry in
  let firstPartyDataContext :=
    default raw_nil (impExt !! FirstPartyDataContextExtKey) in
  let rawPrebidExt := default raw_nil (impExt !! PrebidExtKey) in
  let '(splitImps, errs) :=
    sanitizedImpCopy imp (bidderExts_of impExt) rawPrebidExt firstPartyDataContext
      splitImps in
  (splitImps, errList ++ errs).

(** The map and the [errList] the loop of [splitImps] ends with. *)
Definition splitImps_loop (imps : list Imp) (impExts : list (gmap string RawMessage))
  : gmap string (list Imp) * list error :=
  foldl splitImps_step (∅, []) (zip imps impExts).

(** [splitImps]: the nil map is [None]. The function ends with
    [return splitImps, nil]. *)
Definition splitImps (imps : list Imp) : option (gmap string (list Imp)) * list error :=
  match parseImpExts imps with
  | Err err => (None, [err])
  | Ok impExts => (Some (splitImps_loop imps impExts).1, [])
  end.

End Partition.

(** [copyWithBuyerUID] never writes to the object it is handed: it returns
    the address of a new object, or the address it was given. *)
Definition copyWithBuyerUID (user : option ptr) (buyerUID : string) : M ptr :=
  match user with
  | None => new_user (User_with_BuyerUID zero_User buyerUID)
  | Some p =>
      do u ← get_user p;
      match u with
      | Some u =>
          if bool_decide (User_BuyerUID u = EmptyString)
          then new_user (User_with_BuyerUID u buyerUID)
          else ret p
      | None => ret p
      end
  end.

(** [prepareUser] yields the request copy after the call and the boolean it
    returns. *)
Definition prepareUser (req : BidRequest) (givenBidder : string)
    (coreBidder : BidderName) (explicitBuyerUIDs : gmap string string)
    (usersyncs : IdFetcher) : M (BidRequest * bool) :=
  let '(cookieId, hadCookie) := GetId usersyncs coreBidder in
  match explicitBuyerUIDs !! givenBidder with
  | Some id =>
      do u ← copyWithBuyerUID (Req_User req) id;
      ret (Req_with_User req (Some u), hadCookie)
  | None =>
      if hadCookie
      then
        do u ← copyWithBuyerUID (Req_User req) cookieId;
        ret (Req_with_User req (Some u), hadCookie)
      else ret (req, hadCookie)
  end.

Definition resolveBidder (bidder : string) (aliases : gmap string string)
  : BidderName :=
  match aliases !! bidder with
  | Some coreBidder => coreBidder
  | None => bidder
  end.

(** A loop whose body works on the store. *)
Fixpoint foldM {A B : Type} (f : A → B → M A) (a : A) (l : list B) : M A :=
  match l with
  | [] => ret a
  | x :: l' => do a' ← f a x; foldM f a' l'
  end.

(** One round of the loop of [getAuctionBidderRequests] over
    [impsByBidder]. *)
Definition bidder_step (req : AuctionRequest)
    (explicitBuyerUIDs : gmap string string)
    (sChainsByBidder : gmap string ExtRequestPrebidSChainSChain)
    (reqExt : RawMessage)
    (bidderRequests : list BidderRequest) (entry : string * list Imp)
  : M (list BidderRequest) :=
  let '(bidder, imps) := entry in
  let coreBidder := resolveBidder bidder (AR_Aliases req) in
  let reqCopy := Req_with_Ext (Req_with_Imp (AR_BidRequest req) imps) reqExt in
  do reqCopy ← prepareSource reqCopy bidder sChainsByBidder;
  let labels :=
    {| pbsmetrics.AdapterLabels_Source := pbsmetrics.Labels_Source (AR_LegacyLabels req);
       pbsmetrics.AdapterLabels_RType := pbsmetrics.Labels_RType (AR_LegacyLabels req);
       pbsmetrics.AdapterLabels_Adapter := coreBidder;
       pbsmetrics.AdapterLabels_PubID := pbsmetrics.Labels_PubID (AR_LegacyLabels req);
       pbsmetrics.AdapterLabels_CookieFlag :=
         pbsmetrics.Labels_CookieFlag (AR_LegacyLabels req);
       pbsmetrics.AdapterLabels_AdapterBids := pbsmetrics.AdapterBidPresent |} in
  do r ← prepareUser reqCopy bidder coreBidder explicitBuyerUIDs (AR_UserSyncs req);
  let '(reqCopy, hadSync) := r in
  let flag :=
    if negb hadSync && bool_decide (Req_App (AR_BidRequest req) = None)
    then pbsmetrics.CookieFlagNo
    else pbsmetrics.CookieFlagYes in
  ret (bidderRequests ++
       [{| BR_BidderName := bidder;
           BR_BidderCoreName := coreBidder;
           BR_BidRequest := reqCopy;
           BR_BidderLabels := pbsmetrics.AdapterLabels_with_CookieFlag labels flag |}]).

Section Orchestrator.
Context `{RangeOrder}.

(** [getAuctionBidderRequests]: the nil slice of requests is [None]. *)
Definition getAuctionBidderRequests (req : AuctionRequest)
  : M (option (list BidderRequest) * list error) :=
  let '(impsByBidder, errs) := splitImps (Req_Imp (AR_BidRequest req)) in
  match errs with
  | _ :: _ => ret (None, errs)
  | [] =>
      do explicitBuyerUIDs ← extractBuyerUIDs (Req_User (AR_BidRequest req));
      match explicitBuyerUIDs with
      | Err err => ret (None, [err])
      | Ok explicitBuyerUIDs =>
          match BidderToPrebidSChains (AR_Ext req) with
          | Err err => ret (None, [err])
          | Ok sChainsByBidder =>
              match getExtJson (AR_BidRequest req) (AR_Ext req) with
              | Err err => ret (None, [err])
              | Ok reqExt =>
                  do bidderRequests ←
                    foldM (bidder_step req explicitBuyerUIDs sChainsByBidder reqExt)
                      [] (range (default ∅ impsByBidder));
                  ret (Some bidderRequests, [])
              end
          end
      end
  end.

End Orchestrator.

Definition with_cacheBids (c : extCacheInstructions) (b : bool) : extCacheInstructions :=
  {| cacheBids := b; cacheVAST := cacheVAST c; returnCreative := returnCreative c |}.
Definition with_cacheVAST (c : extCacheInstructions) (b : bool) : extCacheInstructions :=
  {| cacheBids := cacheBids c; cacheVAST := b; returnCreative := returnCreative c |}.
Definition with_returnCreative (c : extCacheInstructions) (b : bool)
  : extCacheInstructions :=
  {| cacheBids := cacheBids c; cacheVAST := cacheVAST c; returnCreative := b |}.

(** [getExtCacheInstructions]. The flags [foundBidsRC] and [foundVastRC]
    carry the value that was found, which the last test reads back through
    the pointers. *)
Definition getExtCacheInstructions (requestExt : option ExtRequest)
  : extCacheInstructions :=
  (* returnCreative defaults to true *)
  let cacheInstructions :=
    {| cacheBids := false; cacheVAST := false; returnCreative := true |} in
  let '(cacheInstructions, foundBidsRC, foundVastRC) :=
    match requestExt ≫= (λ e, Cache (ReqPrebid e)) with
    | Some cache =>
        let '(cacheInstructions, foundBidsRC) :=
          match Bids cache with
          | Some bids =>
              let cacheInstructions := with_cacheBids cacheInstructions true in
              match Bids_ReturnCreative bids with
              | Some rc => (with_returnCreative cacheInstructions rc, Some rc)
              | None => (cacheInstructions, None)
              end
          | None => (cacheInstructions, None)
          end in
        let '(cacheInstructions, foundVastRC) :=
          match VastXML cache with
          | Some vast =>
              let cacheInstructions := with_cacheVAST cacheInstructions true in
              match VAST_ReturnCreative vast with
              | Some rc => (with_returnCreative cacheInstructions rc, Some rc)
              | None => (cacheInstructions, None)
              end
          | None => (cacheInstructions, None)
          end in
        (cacheInstructions, foundBidsRC, foundVastRC)
    | None => (cacheInstructions, None, None)
    end in
  match foundBidsRC, foundVastRC with
  | Some bidsRC, Some vastRC => with_returnCreative cacheInstructions (bidsRC || vastRC)
  | _, _ => cacheInstructions
  end.

(** The value of [prebid.cache.bids.returnCreative] and of
    [prebid.cache.vastxml.returnCreative], when the request specifies it. *)
Definition bids_returnCreative (requestExt : option ExtRequest) : option bool :=
  ((requestExt ≫= (λ e, Cache (ReqPrebid e))) ≫= Bids) ≫= Bids_ReturnCreative.
Definition vastxml_returnCreative (requestExt : option ExtRequest) : option bool :=
  ((requestExt ≫= (λ e, Cache (ReqPrebid e))) ≫= VastXML) ≫= VAST_ReturnCreative.

(** *** Notions used to state what the partition contains *)

(** The [prebid] block without its [bidder] member: an object loses the
    member, anything else is left as it is. *)
Definition without_bidder (rawPrebidExt : RawMessage) : RawMessage :=
  match rawPrebidExt with
  | raw_doc (JObj m) => raw_doc (JObj (delete "bidder" m))
  | _ => rawPrebidExt
  end.

(** The bidders an impression addresses, each with its parameter payload:
    the parameters handed to [sanitizedImpCopy], the keys [prebid] and
    [context] apart. *)
Definition addressed (impExt : gmap string RawMessage) : gmap string RawMessage :=
  delete FirstPartyDataContextExtKey (delete PrebidExtKey (bidderExts_of impExt)).

(** The extension of the copy of an impression for a bidder with payload
    [ext]. *)
Definition copyExt (impExt : gmap string RawMessage) (ext : RawMessage)
  : gmap string value :=
  omitempty FirstPartyDataContextExtKey
    (to_value <$> impExt !! FirstPartyDataContextExtKey)
    (omitempty PrebidExtKey
       (to_value ∘ without_bidder <$> impExt !! PrebidExtKey)
       (<["bidder" := to_value ext]> ∅)).

(** The copy of impression [imp] for [bidder], if [imp] addresses it. *)
Definition copy_for (bidder : string) (entry : Imp * gmap string RawMessage)
  : option Imp :=
  let '(imp, impExt) := entry in
  (λ ext, Imp_with_Ext imp (raw_doc (JObj (copyExt impExt ext))))
    <$> addressed impExt !! bidder.

(** The keys of an impression extension that are not bidder names. *)
Definition reserved (k : string) : Prop :=
  k = PrebidExtKey ∨ k = FirstPartyDataContextExtKey.

(** The copy [sanitizedImpCopy] appends for a payload [ext], given the
    stripped [prebid] block [p] and the context [c]. *)
Definition mk_copy (imp : Imp) (p c ext : RawMessage) : Imp :=
  Imp_with_Ext imp (raw_doc (JObj (to_value <$> newExt ext p c))).


(** The bidder names of all the supply-chain associations of a request, in
    declaration order. *)
Definition declared_bidders (sChains : list ExtRequestPrebidSChain) : list string :=
  sChains ≫= Bidders.

(** The user extension [extractBuyerUIDs] re-encodes. *)
Definition without_prebid (userExt : ExtUser) : ExtUser :=
  {| Consent := Consent userExt; Prebid := None; DigiTrust := DigiTrust userExt |}.

(** The template user of a request: the object its pointer leads to. *)
Definition template_user (req : BidRequest) (h : Heap) : option User :=
  Req_User req ≫= (λ p, users h !! p).

(** The enumeration of a map in the order of its keys' codes: one of the
    orders a [range] loop may take. *)
Definition canonical_order : RangeOrder :=
  {| range := λ V, map_to_list; range_perm := λ V m, reflexivity _ |}.

(** The supply chain [prepareSource] resolves for a bidder. *)
Definition selected_SChain (bidder : string)
    (sChainsByBidder : gmap string ExtRequestPrebidSChainSChain)
  : option ExtRequestPrebidSChainSChain :=
  match sChainsByBidder !! bidder with
  | Some c => Some c
  | None => sChainsByBidder !! sChainWildCard
  end.

(** The buyer identifier [prepareUser] selects for a bidder. *)
Definition selected_BuyerUID (givenBidder : string) (coreBidder : BidderName)
    (explicitBuyerUIDs : gmap string string) (usersyncs : IdFetcher)
  : option string :=
  match explicitBuyerUIDs !! givenBidder with
  | Some id => Some id
  | None =>
      if (GetId usersyncs coreBidder).2
      then Some (GetId usersyncs coreBidder).1
      else None
  end.

(** *** Notions used to state what the orchestration produces *)

(** The extension [prepareSource] writes for the chain it selected. *)
Definition source_ext (c : ExtRequestPrebidSChainSChain) : RawMessage :=
  raw_doc (encode_SChain {| Bidders := []; SChain := c |}).

(** The user a bidder request carries, given the template user and the
    buyer identifier selected for the bidder: the template itself when no
    identifier is selected or when the template has an identifier of its
    own, a copy of the template with the selected identifier otherwise. *)
Definition outgoing_user (tmpl : option User) (id : option string) : option User :=
  match id with
  | None => tmpl
  | Some id =>
      let u := default zero_User tmpl in
      Some (if decide (User_BuyerUID u = EmptyString)
            then User_with_BuyerUID u id else u)
  end.



(** The objects the request of a bidder points to. *)
Definition user_of (h : Heap) (br : BidderRequest) : option User :=
  Req_User (BR_BidRequest br) ≫= (λ p, users h !! p).
Definition source_of (h : Heap) (br : BidderRequest) : option Source :=
  Req_Source (BR_BidRequest br) ≫= (λ p, sources h !! p).

(** The chain selected for the last of the bidders, in the order the loop
    visits them, that has one. *)
Definition last_chain (sChainsByBidder : gmap string ExtRequestPrebidSChainSChain)
    (entries : list (string * list Imp)) : option ExtRequestPrebidSChainSChain :=
  last (omap (λ entry, selected_SChain entry.1 sChainsByBidder) entries).

(** The error a round of the loop of [sanitizedImpCopy] records for an
    entry of [bidderExts], if it records one. *)
Definition encode_failure (rawPrebidExt firstPartyDataContext : RawMessage)
    (entry : string * RawMessage) : option error :=
  if decide (reserved entry.1) then None
  else match Marshal_map (newExt entry.2 rawPrebidExt firstPartyDataContext) with
       | Err err => Some err
       | Ok _ => None
       end.

(** The two loops of [BidderToPrebidSChains] as one, over the pairs of a
    declared bidder and its chain in declaration order. *)
Fixpoint schain_pairs (pairs : list (string * ExtRequestPrebidSChainSChain))
    (bidderToSChains : gmap string ExtRequestPrebidSChainSChain)
  : result (gmap string ExtRequestPrebidSChainSChain) :=
  match pairs with
  | [] => Ok bidderToSChains
  | (bidder, sChain) :: rest =>
      match bidderToSChains !! bidder with
      | Some _ => Err (multiple_schains bidder)
      | None => schain_pairs rest (<[bidder := sChain]> bidderToSChains)
      end
  end.

Definition declared_pairs (sChains : list ExtRequestPrebidSChain)
  : list (string * ExtRequestPrebidSChainSChain) :=
  sChains ≫= (λ w, (λ b, (b, SChain w)) <$> Bidders w).

(** *** randomizeList *)

(** [list[i], list[j] = list[j], list[i]]: both elements are read, then
    both are written; an index out of range panics ([None]). *)
Definition swap (lst : list BidderName) (i j : nat) : option (list BidderName) :=
  match lst !! i, lst !! j with
  | Some x, Some y => Some (<[j := x]> (<[i := y]> lst))
  | _, _ => None
  end.

(** One round of the loop of [randomizeList], where [perm] is the slice
    [rand.Perm(l)] returned. *)
Definition randomize_step (perm : list nat) (lst : option (list BidderName)) (i : nat)
  : option (list BidderName) :=
  match lst with
  | Some lst =>
      match perm !! i with
      | Some j => swap lst i j
      | None => None
      end
  | None => None
  end.

(** [randomizeList]: the slice after the call, for the permutation
    [rand.Perm] drew. *)
Definition randomizeList (perm : list nat) (lst : list BidderName)
  : option (list BidderName) :=
  foldl (randomize_step perm) (Some lst) (seq 0 (length lst)).

End exchange.

(** ** adapters/generic/generic.go *)

Module generic.
Import json openrtb openrtb_ext adapters.

Definition StatusOK : Z := 200.
Definition StatusNoContent : Z := 204.
Definition StatusBadRequest : Z := 400.

Definition unexpected_status (code : Z) : string :=
  "Unexpected status code: " +:+ itoa code
  +:+ ". Run with request.debug = 1 for more info".

Fixpoint getMediaTypeForImp (impID : string) (imps : list Imp) : result BidType :=
  match imps with
  | [] =>
      (* This shouldnt happen. Lets handle it just incase by returning an error. *)
      Err (BadInput ("Failed to find impression " +:+ dquote +:+ impID
                     +:+ dquote +:+ " "))
  | imp :: rest =>
      if bool_decide (Imp_ID imp = impID)
      then
        match Imp_Banner imp, Imp_Video imp with
        | None, Some _ => Ok BidTypeVideo
        | _, _ => Ok BidTypeBanner
        end
      else getMediaTypeForImp impID rest
  end.

(** One round of the inner loop of [MakeBids], over the bids of a seat. *)
Definition bid_step (internalRequest : BidRequest)
    (acc : BidderResponse * list error) (bid : Bid) : BidderResponse * list error :=
  let '(bidResponse, errs) := acc in
  match getMediaTypeForImp (Bid_ImpID bid) (Req_Imp internalRequest) with
  | Err err => (bidResponse, errs ++ [err])
  | Ok bidType =>
      let b := {| TypedBid_Bid := bid; TypedBid_BidType := bidType |} in
      ({| BidderResponse_Bids := BidderResponse_Bids bidResponse ++ [b] |}, errs)
  end.

(** One round of its outer loop, over the seats of the response. *)
Definition seat_step (internalRequest : BidRequest)
    (acc : BidderResponse * list error) (sb : SeatBid) : BidderResponse * list error :=
  foldl (bid_step internalRequest) acc (SeatBid_Bid sb).

(** [MakeBids]: the nil response is [None]. The adapter itself holds the
    endpoint template only, which [MakeBids] does not read. *)
Definition MakeBids (internalRequest : BidRequest) (externalRequest : RequestData)
    (response : ResponseData) : option BidderResponse * list error :=
  if bool_decide (StatusCode response = StatusNoContent) then (None, [])
  else if bool_decide (StatusCode response = StatusBadRequest)
  then (None, [BadInput (unexpected_status (StatusCode response))])
  else if bool_decide (StatusCode response ≠ StatusOK)
  then (None, [BadServerResponse (unexpected_status (StatusCode response))])
  else
    match Unmarshal_BidResponse (Resp_Body response) with
    | Err err => (None, [err])
    | Ok bidResp =>
        let bidResponse := NewBidderResponseWithBidsCapacity 5 in
        let '(bidResponse, errs) :=
          foldl (seat_step internalRequest) (bidResponse, []) (Resp_SeatBid bidResp) in
        (Some bidResponse, errs)
    end.

(** The first impression of the request with the given id. *)
Definition matching_imp (impID : string) (imps : list Imp) : option Imp :=
  head (filter (λ imp, Imp_ID imp = impID) imps).

(** The media type of an impression: video when it carries a video object
    and no banner object, banner otherwise. *)
Definition media_type (imp : Imp) : BidType :=
  match Imp_Banner imp, Imp_Video imp with
  | None, Some _ => BidTypeVideo
  | _, _ => BidTypeBanner
  end.

(** The typed bid [MakeBids] makes of a bid of the response, if the bid
    names an impression of the request. *)
Definition typed_bid (imps : list Imp) (bid : Bid) : option TypedBid :=
  (λ imp, {| TypedBid_Bid := bid; TypedBid_BidType := media_type imp |})
    <$> matching_imp (Bid_ImpID bid) imps.

(** [MakeRequests] and [getBidderParams] *)

(** [strings.TrimSuffix] *)
Definition TrimSuffix (s suffix : string) : string :=
  if bool_decide (String.length suffix ≤ String.length s
                  ∧ substring (String.length s - String.length suffix)
                      (String.length suffix) s = suffix)
  then substring 0 (String.length s - String.length suffix) s
  else s.

(** The fields the adapter reads of [adapters.ExtImpBidder], of
    [openrtb_ext.ExtImpGeneric] and of [macros.EndpointTemplateParams]. *)
Record ExtImpBidder : Type := {
  ExtImpBidder_Bidder : RawMessage
}.

Record ExtImpGeneric : Type := {
  Host : string
}.

Record EndpointTemplateParams : Type := {
  Params_Host : string
}.

Section Requests.
(** The three struct types above, [text/template] and [macros.ResolveMacros]
    are declared outside these files: the decoders of the two extension
    types, the resolution of a template and the encoder of a bid request are
    taken as given. *)
Context {Template : Type}.
Variable Unmarshal_ExtImpBidder : RawMessage → result ExtImpBidder.
Variable Unmarshal_ExtImpGeneric : RawMessage → result ExtImpGeneric.
Variable ResolveMacros : Template → EndpointTemplateParams → result string.
Variable Marshal_BidRequest : BidRequest → result RawMessage.

Record Adapter : Type := {
  EndpointTemplate : Template
}.

Definition getBidderParams (imp : Imp) : result ExtImpGeneric :=
  match Unmarshal_ExtImpBidder (Imp_Ext imp) with
  | Err err => Err (BadInput ("Missing bidder ext: " +:+ Error err))
  | Ok bidderExt =>
      match Unmarshal_ExtImpGeneric (ExtImpBidder_Bidder bidderExt) with
      | Err err => Err (BadInput ("Bad bidder params in a bidder ext: " +:+ Error err))
      | Ok genericExt =>
          if bool_decide (String.length (Host genericExt) < 1)
          then Err (BadInput "Invalid/Missing Host")
          else Ok genericExt
      end
  end.

(** The loop of [MakeRequests] over the impressions. The headers of a
    request are the same two for every request and are left out. *)
Fixpoint MakeRequests_loop (a : Adapter) (request : BidRequest) (imps : list Imp)
    (adapterRequests : list RequestData) : option (list RequestData) * list error :=
  match imps with
  | [] => (Some adapterRequests, [])
  | imp :: rest =>
      match getBidderParams imp with
      | Err err => (None, [ErrorString ("Unable to parse bidder ext. " +:+ Error err)])
      | Ok bidderParams =>
          let urlParams := {| Params_Host := Host bidderParams |} in
          match ResolveMacros (EndpointTemplate a) urlParams with
          | Err err =>
              (None, [ErrorString ("Unable to contruct the URL using the provided host. "
                                   +:+ Error err)])
          | Ok url =>
              let url := TrimSuffix url "/" in
              let reqCopy := Req_with_Imp request [imp] in
              match Marshal_BidRequest reqCopy with
              | Err err =>
                  (None, [ErrorString ("Unable to JSON marshal the request. "
                                       +:+ Error err)])
              | Ok requestJSON =>
                  MakeRequests_loop a request rest
                    (adapterRequests ++
                     [{| Method := "POST";
                         Uri := url +:+ "/?impID=" +:+ Imp_ID imp;
                         Body := requestJSON |}])
              end
          end
      end
  end.

(** [MakeRequests]: the nil slice of requests is [None]. *)
Definition MakeRequests (a : Adapter) (request : BidRequest)
  : option (list RequestData) * list error :=
  if bool_decide (length (Req_Imp request) ≤ 0)
  then (None, [ErrorString "No imps present in request"])
  else MakeRequests_loop a request (Req_Imp request) [].

(** The request [MakeRequests] builds for one impression. *)
Definition request_for (a : Adapter) (request : BidRequest) (imp : Imp)
    (r : RequestData) : Prop :=
  ∃ bidderParams url,
    getBidderParams imp = Ok bidderParams
    ∧ Host bidderParams ≠ EmptyString
    ∧ ResolveMacros (EndpointTemplate a) {| Params_Host := Host bidderParams |} = Ok url
    ∧ Method r = "POST"
    ∧ Uri r = TrimSuffix url "/" +:+ "/?impID=" +:+ Imp_ID imp
    ∧ Marshal_BidRequest (Req_with_Imp request [imp]) = Ok (Body r).

End Requests.

(** The error [MakeBids] records for a bid of the response that names no
    impression of the request. *)
Definition bid_error (imps : list Imp) (bid : Bid) : option error :=
  match matching_imp (Bid_ImpID bid) imps with
  | Some _ => None
  | None => Some (BadInput ("Failed to find impression " +:+ dquote +:+ Bid_ImpID bid
                            +:+ dquote +:+ " "))
  end.

End generic.

(** ** Concrete requests *)

(** The inputs the examples of the specification are evaluated on. *)
Module examples.
Import json openrtb openrtb_ext store adapters exchange generic.

Definition obj (members : list (string * value)) : value :=
  JObj (list_to_map members).

(** The impression extension of the partition example and the map it
    decodes to. *)
Definition partition_members : list (string * value) :=
  [("prebid", obj [("bidder", obj [("bidderA", obj [("p", JNum 1)]);
                                    ("bidderB", obj [("p", JNum 2)])])]);
   ("context", obj [("k", JStr "v")])].

Definition partition_impExt : gmap string RawMessage :=
  raw_doc <$> list_to_map partition_members.

Definition partition_imp : Imp :=
  {| Imp_ID := "imp-1"; Imp_Banner := Some {| Banner_W := 300; Banner_H := 250 |};
     Imp_Video := None; Imp_Ext := raw_doc (obj partition_members) |}.



(** An impression whose extension is not a JSON text, and a video
    impression. *)
Definition malformed_imp : Imp :=
  {| Imp_ID := "imp-2"; Imp_Banner := None; Imp_Video := None;
     Imp_Ext := raw_bad "oops" |}.

Definition video_imp : Imp :=
  {| Imp_ID := "imp-3"; Imp_Banner := None;
     Imp_Video := Some {| Video_MIMEs := ["video/mp4"] |};
     Imp_Ext := raw_doc (obj [("bidderA", obj [("p", JNum 1)])]) |}.

(** A user with a consent string and an explicit buyer identifier for
    bidderA, alone in the store. *)
Definition user_ext : value :=
  obj [("consent", JStr "CONSENT");
       ("prebid", obj [("buyeruids", obj [("bidderA", JStr "uid123")])])].

Definition shared_user : User :=
  {| User_ID := "user-1"; User_BuyerUID := EmptyString; User_Ext := raw_doc user_ext |}.

Definition shared_heap : Heap := {| users := [shared_user]; sources := [] |}.

Definition explicit_uids : gmap string string := {["bidderA" := "uid123"]}.

(** What the extension of that user decodes to. *)
Definition decoded_user_ext : ExtUser :=
  {| Consent := "CONSENT"; Prebid := Some {| BuyerUIDs := explicit_uids |};
     DigiTrust := None |}.

(** A sync store that knows bidderB only. *)
Definition sync_store : IdFetcher :=
  {| GetId := λ bidder, if bool_decide (bidder = "bidderB")
                        then ("uidSynced", true)
                        else (EmptyString, false) |}.

Definition template_request (imps : list Imp) : BidRequest :=
  {| Req_ID := "req-1"; Req_Imp := imps; Req_App := None; Req_User := Some 0;
     Req_Source := None; Req_Test := 0; Req_Ext := raw_doc (obj [("prebid", obj [])]) |}.

(** Two supply chains, declared for the wildcard and for bidderA, and the
    same two both declared for bidderA. *)
Definition chain_X : ExtRequestPrebidSChainSChain :=
  {| Complete := 1; Nodes := [{| ASI := "x.example"; SID := "1"; HP := 1 |}];
     Ver := "1.0" |}.

Definition chain_Y : ExtRequestPrebidSChainSChain :=
  {| Complete := 1; Nodes := [{| ASI := "y.example"; SID := "2"; HP := 1 |}];
     Ver := "1.0" |}.

Definition request_ext (sChains : list ExtRequestPrebidSChain) : ExtRequest :=
  {| ReqPrebid := {| Aliases := ∅; Cache := None; SChains := sChains;
                     Debug := false |} |}.

Definition wildcard_and_bidderA : list ExtRequestPrebidSChain :=
  [{| Bidders := ["*"]; SChain := chain_X |};
   {| Bidders := ["bidderA"]; SChain := chain_Y |}].

Definition bidderA_twice : list ExtRequestPrebidSChain :=
  [{| Bidders := ["bidderA"]; SChain := chain_X |};
   {| Bidders := ["bidderA"]; SChain := chain_Y |}].

Definition chains_by_bidder : gmap string ExtRequestPrebidSChainSChain :=
  <["*" := chain_X]> {["bidderA" := chain_Y]}.

Definition labels : pbsmetrics.Labels :=
  {| pbsmetrics.Labels_Source := pbsmetrics.DemandWeb;
     pbsmetrics.Labels_RType := pbsmetrics.ReqTypeORTB2Web;
     pbsmetrics.Labels_PubID := "pub-1";
     pbsmetrics.Labels_CookieFlag := pbsmetrics.CookieFlagUnknown |}.

Definition auction_request (imps : list Imp) (sChains : list ExtRequestPrebidSChain)
  : AuctionRequest :=
  {| AR_BidRequest := template_request imps;
     AR_Ext := Some (request_ext sChains);
     AR_Aliases := ∅;
     AR_UserSyncs := sync_store;
     AR_LegacyLabels := labels |}.

(** An account that overrides the consent regime for AMP only, and a system
    configuration. *)
Definition amp_only_account : config.Account :=
  {| config.Account_GDPR :=
       {| config.GDPR_EnabledForIntegrationType :=
            λ t, match t with
                 | config.IntegrationTypeAMP => Some false
                 | _ => None
                 end |};
     config.Account_CCPA :=
       {| config.CCPA_EnabledForIntegrationType := λ _, None |} |}.

Definition system_privacy : config.Privacy :=
  {| config.Privacy_GDPR := {| config.GDPR_Enabled := true |};
     config.Privacy_CCPA := {| config.CCPA_Enforce := true |};
     config.Privacy_LMT := {| config.LMT_Enforce := true |} |}.

(** A transport request and responses of the generic adapter. *)
Definition transport_request : RequestData :=
  {| Method := "POST"; Uri := "http://host.example/?impID=imp-3";
     Body := raw_doc (obj []) |}.

Definition response_with (status : Z) : ResponseData :=
  {| StatusCode := status;
     Resp_Body := raw_doc (obj [("id", JStr "resp-1");
                                ("seatbid",
                                 JArr [obj [("bid",
                                             JArr [obj [("id", JStr "bid-1");
                                                        ("impid", JStr "imp-3")];
                                                   obj [("id", JStr "bid-2");
                                                        ("impid", JStr "imp-1")]])]])]) |}.

(** The store after the buyer identifiers of [shared_user] were extracted:
    the extension keeps the consent string only. *)
Definition stripped_heap : Heap :=
  {| users := [User_with_Ext shared_user (raw_doc (obj [("consent", JStr "CONSENT")]))];
     sources := [] |}.

(** A request that comes with a source object, and a store that holds it. *)
Definition inbound_source : Source :=
  {| Source_FD := 1; Source_TID := "tid-1"; Source_PChain := EmptyString;
     Source_Ext := raw_nil |}.

Definition sourced_heap : Heap :=
  {| users := [shared_user]; sources := [inbound_source] |}.

Definition sourced_request (imps : list Imp) (sChains : list ExtRequestPrebidSChain)
  : AuctionRequest :=
  {| AR_BidRequest := Req_with_Source (template_request imps) (Some 0);
     AR_Ext := Some (request_ext sChains);
     AR_Aliases := ∅;
     AR_UserSyncs := sync_store;
     AR_LegacyLabels := labels |}.

End examples.

(** * Verification *)

Import json openrtb openrtb_ext store adapters exchange generic examples.

(** ** Raw messages and maps *)

Section JsonFacts.

(** Decoding yields messages that hold JSON texts, and such messages
    encode. *)
Lemma docs_fmap (m : gmap string value) : docs (raw_doc <$> m).
Proof.
  intros k x. rewrite lookup_fmap. destruct (m !! k) as [v|]; simpl; [|done].
  intros [= <-]. by exists v.
Qed.

Lemma to_value_docs (m : gmap string value) : to_value <$> (raw_doc <$> m) = m.
Proof.
  rewrite <- map_fmap_compose. rewrite <- (map_fmap_id m) at 2.
  by apply map_fmap_ext.
Qed.

Lemma Marshal_map_encodable (m : gmap string RawMessage) :
  map_Forall (λ _ x, encodable x = true) m →
  Marshal_map m = Ok (raw_doc (JObj (to_value <$> m))).
Proof. intros Hm. unfold Marshal_map. by rewrite bool_decide_eq_true_2. Qed.

Lemma Marshal_map_docs (m : gmap string value) :
  Marshal_map (raw_doc <$> m) = Ok (raw_doc (JObj m)).
Proof.
  rewrite Marshal_map_encodable, to_value_docs; [done|].
  intros k x Hx. by destruct (docs_fmap m k x Hx) as [v ->].
Qed.

Lemma Unmarshal_map_docs (data : RawMessage) (m : gmap string RawMessage) :
  Unmarshal_map data = Ok m → docs m.
Proof.
  unfold Unmarshal_map. destruct data as [|bytes|v]; simpl.
  - done.
  - by case_bool_decide.
  - destruct v; intros [= <-]; try done. apply docs_fmap.
Qed.

(** Encoding a map and decoding the result gives the map back, a nil
    message read as [null]. *)
Lemma Unmarshal_Marshal_map (m : gmap string RawMessage) (data : RawMessage) :
  Marshal_map m = Ok data →
  Unmarshal_map data = Ok (raw_doc ∘ to_value <$> m).
Proof.
  unfold Marshal_map. case_bool_decide; [|done]. intros [= <-].
  unfold Unmarshal_map, scan, rbind. by rewrite map_fmap_compose.
Qed.

Lemma Marshal_map_bad (m : gmap string RawMessage) (k bytes : string) :
  m !! k = Some (raw_bad bytes) → is_Err (Marshal_map m).
Proof.
  intros Hk. unfold Marshal_map. rewrite bool_decide_eq_false_2; [by eexists|].
  intros Hm. by specialize (Hm k _ Hk).
Qed.

End JsonFacts.

(** ** Impression partitioning *)

Section PartitionFacts.
Context `{RangeOrder}.

(** Whatever order a [range] loop takes, it meets every key once. *)
Lemma range_NoDup {V : Type} (m : gmap string V) : NoDup (range m).*1.
Proof. rewrite (range_perm V m). apply NoDup_fst_map_to_list. Qed.

Lemma list_to_map_range {V : Type} (m : gmap string V) : list_to_map (range m) = m.
Proof.
  rewrite <- (list_to_map_to_list m) at 2.
  apply list_to_map_proper; [apply range_NoDup | apply range_perm].
Qed.

Lemma range_Forall {V : Type} (P : string → V → Prop) (m : gmap string V) :
  map_Forall P m → Forall (λ e, P e.1 e.2) (range m).
Proof.
  intros Hm. rewrite (range_perm V m). apply Forall_forall. intros [k v] Hkv.
  apply elem_of_map_to_list in Hkv. by apply Hm.
Qed.

(** On what a decoded extension can hold under [prebid], the first part of
    [sanitizedImpCopy] removes the [bidder] member and reports no error. *)
Lemma strip_bidder_nil : strip_bidder raw_nil = (raw_nil, []).
Proof. reflexivity. Qed.

Lemma strip_bidder_doc (v : value) :
  strip_bidder (raw_doc v) = (without_bidder (raw_doc v), []).
Proof.
  unfold strip_bidder, Unmarshal_map. destruct v as [| | | | |m]; simpl; try done.
  rewrite lookup_fmap. destruct (m !! "bidder") as [b|] eqn:Hb; simpl.
  - by rewrite <- fmap_delete, Marshal_map_docs.
  - by rewrite delete_id.
Qed.

Lemma newExt_encodable (ext p c : RawMessage) :
  encodable ext = true → encodable p = true → encodable c = true →
  map_Forall (λ _ x, encodable x = true) (newExt ext p c).
Proof.
  intros Hext Hp Hc. unfold newExt.
  destruct (is_nil p), (len0 c);
    repeat (apply map_Forall_insert_2; [done|]); apply map_Forall_empty.
Qed.

(** The loop of [sanitizedImpCopy] over payloads that encode: every bidder
    key gets one more copy, the other keys of [out] are untouched, and no
    error is added. *)
Lemma sanitize_fold (imp : Imp) (p c : RawMessage) (l : list (string * RawMessage)) :
  encodable p = true → encodable c = true →
  ∀ out errs,
    NoDup l.*1 → Forall (λ e, encodable e.2 = true) l →
    ∃ out',
      foldl (sanitize_step imp p c) (out, errs) l = (out', errs) ∧
      ∀ b, out' !! b =
           match (if decide (reserved b) then None
                  else (list_to_map l : gmap string RawMessage) !! b) with
           | Some ext => Some (default [] (out !! b) ++ [mk_copy imp p c ext])
           | None => out !! b
           end.
Proof.
  intros Hp Hc. unfold mk_copy.
  induction l as [|[k ext] l IH]; intros out errs Hnd Hall.
  - exists out. split; [done|]. intros b. rewrite list_to_map_nil, lookup_empty.
    by case_decide.
  - rewrite fmap_cons in Hnd. apply NoDup_cons in Hnd as [Hk Hnd].
    apply Forall_cons in Hall as [Hext Hall].
    simpl in Hext. cbn [foldl]. unfold sanitize_step at 2.
    case_bool_decide as Hres.
    + destruct (IH out errs Hnd Hall) as (out' & -> & Hout'). exists out'.
      split; [done|]. intros b. rewrite Hout'. case_decide as Hb; [done|].
      rewrite list_to_map_cons, lookup_insert_ne; [done|].
      intros ->. by apply Hb.
    + rewrite Marshal_map_encodable by (by apply newExt_encodable).
      destruct (IH (<[k := default [] (out !! k) ++
                            [Imp_with_Ext imp (raw_doc (JObj (to_value <$> newExt ext p c)))]]>
                      out) errs Hnd Hall) as (out' & -> & Hout').
      exists out'. split; [done|]. intros b. rewrite Hout'.
      rewrite list_to_map_cons. destruct (decide (b = k)) as [->|Hbk].
      * destruct (decide (reserved k)) as [?|_]; [done|].
        rewrite !lookup_insert_eq.
        by rewrite (not_elem_of_list_to_map_1 _ _ Hk).
      * by rewrite !(lookup_insert_ne _ k b) by congruence.
Qed.

Lemma docs_encodable (m : gmap string RawMessage) :
  docs m → map_Forall (λ _ x, encodable x = true) m.
Proof. intros Hm k x Hx. by destruct (Hm k x Hx) as [v ->]. Qed.

Lemma Unmarshal_ExtImpPrebid_docs (data : RawMessage) (p : ExtImpPrebid)
    (b : gmap string RawMessage) :
  Unmarshal_ExtImpPrebid data = Ok p → Bidder p = Some b → docs b.
Proof.
  unfold Unmarshal_ExtImpPrebid, Unmarshal_struct, decode_ExtImpPrebid.
  destruct (scan data) as [v|]; simpl; [|done].
  destruct v as [| | | | |m]; try done; [by intros [= <-]|].
  destruct (m !! "bidder") as [[| | | | |o]|]; try done;
    intros [= <-]; simpl; try done.
  intros [= <-]. apply docs_fmap.
Qed.

Lemma bidderExts_of_docs (impExt : gmap string RawMessage) :
  docs impExt → docs (bidderExts_of impExt).
Proof.
  intros Hm. unfold bidderExts_of.
  destruct (impExt !! PrebidExtKey) as [raw|]; [|done].
  destruct (Unmarshal_ExtImpPrebid raw) as [p|] eqn:Hp; [|done].
  destruct (Bidder p) as [b|] eqn:Hb; [|done].
  by eapply Unmarshal_ExtImpPrebid_docs.
Qed.

(** The extension object built in the loop is [copyExt]. *)
Lemma newExt_copyExt (impExt : gmap string RawMessage) (ext : RawMessage) :
  docs impExt →
  to_value <$> newExt ext
                 (strip_bidder (default raw_nil (impExt !! PrebidExtKey))).1
                 (default raw_nil (impExt !! FirstPartyDataContextExtKey))
  = copyExt impExt ext.
Proof.
  intros Hm. unfold newExt, copyExt.
  destruct (impExt !! FirstPartyDataContextExtKey) as [c|] eqn:Hc;
    [destruct (Hm _ _ Hc) as [vc ->]|];
    (destruct (impExt !! PrebidExtKey) as [p|] eqn:Hp;
       [destruct (Hm _ _ Hp) as [vp ->]; cbn [from_option id];
        rewrite strip_bidder_doc; cbn [fst];
        assert (is_nil (without_bidder (raw_doc vp)) = false) as ->
          by (by destruct vp)|]);
    simpl; by rewrite ?fmap_insert, ?fmap_empty.
Qed.

Lemma strip_bidder_no_error (impExt : gmap string RawMessage) :
  docs impExt →
  (strip_bidder (default raw_nil (impExt !! PrebidExtKey))).2 = []
  ∧ encodable (strip_bidder (default raw_nil (impExt !! PrebidExtKey))).1 = true.
Proof.
  intros Hm. destruct (impExt !! PrebidExtKey) as [p|] eqn:Hp; [|done].
  destruct (Hm _ _ Hp) as [vp ->]. cbn [from_option id].
  rewrite strip_bidder_doc. split; [done|]. by destruct vp.
Qed.

(** [sanitizedImpCopy] as [splitImps] calls it on a decoded extension. *)
Lemma sanitizedImpCopy_spec (imp : Imp) (impExt : gmap string RawMessage)
    (out : gmap string (list Imp)) :
  docs impExt →
  ∃ out',
    sanitizedImpCopy imp (bidderExts_of impExt)
      (default raw_nil (impExt !! PrebidExtKey))
      (default raw_nil (impExt !! FirstPartyDataContextExtKey)) out = (out', [])
    ∧ ∀ b, out' !! b =
           match copy_for b (imp, impExt) with
           | Some c => Some (default [] (out !! b) ++ [c])
           | None => out !! b
           end.
Proof.
  intros Hm. unfold sanitizedImpCopy.
  destruct (strip_bidder_no_error impExt Hm) as [Herrs Hp].
  pose proof (newExt_copyExt impExt) as Hcopy.
  destruct (strip_bidder (default raw_nil (impExt !! PrebidExtKey))) as [p errs].
  simpl in Herrs, Hp, Hcopy. subst errs.
  assert (encodable (default raw_nil (impExt !! FirstPartyDataContextExtKey)) = true)
    as Hc.
  { destruct (impExt !! FirstPartyDataContextExtKey) as [c|] eqn:Hc; [|done].
    by destruct (Hm _ _ Hc) as [vc ->]. }
  destruct (sanitize_fold imp p _ (range (bidderExts_of impExt)) Hp Hc out [])
    as (out' & Hfold & Hout').
  { apply range_NoDup. }
  { apply (range_Forall (λ _ x, encodable x = true)), docs_encodable.
    by apply bidderExts_of_docs. }
  exists out'. split; [done|]. intros b. rewrite Hout'. clear Hout' Hfold.
  rewrite list_to_map_range. unfold copy_for, addressed, mk_copy.
  case_decide as Hb.
  - assert (delete FirstPartyDataContextExtKey
              (delete PrebidExtKey (bidderExts_of impExt)) !! b = None) as ->; [|done].
    destruct Hb as [-> | ->].
    + rewrite lookup_delete_ne by done. apply lookup_delete_eq.
    + apply lookup_delete_eq.
  - rewrite !lookup_delete_ne by (intros <-; apply Hb; unfold reserved; auto).
    destruct (bidderExts_of impExt !! b) as [ext|]; simpl; [|done].
    by rewrite Hcopy.
Qed.

(** The loop of [splitImps]: the list of a bidder grows by its copies, in
    impression order, and [errList] stays as it was. *)
Lemma splitImps_loop_spec (entries : list (Imp * gmap string RawMessage)) :
  Forall (λ e, docs e.2) entries →
  ∀ out errs,
    ∃ out',
      foldl splitImps_step (out, errs) entries = (out', errs)
      ∧ ∀ b, out' !! b =
             match omap (copy_for b) entries with
             | [] => out !! b
             | l => Some (default [] (out !! b) ++ l)
             end.
Proof.
  induction 1 as [|[imp impExt] entries Hdocs _ IH]; intros out errs.
  - by exists out.
  - cbn [foldl]. unfold splitImps_step at 2.
    destruct (sanitizedImpCopy_spec imp impExt out Hdocs) as (out1 & -> & Hout1).
    rewrite app_nil_r. destruct (IH out1 errs) as (out' & -> & Hout').
    exists out'. split; [done|]. intros b. rewrite Hout', Hout1.
    cbn [omap list_omap]. fold (omap (copy_for b) entries).
    destruct (copy_for b (imp, impExt)) as [c|]; [|done].
    destruct (omap (copy_for b) entries) as [|c' l]; [done|].
    simpl. by rewrite <- app_assoc.
Qed.

(** A successful [parseImpExts] decoded every extension. *)
Lemma parseImpExts_from_Ok (i : nat) (imps : list Imp)
    (exts : list (gmap string RawMessage)) :
  parseImpExts_from i imps = Ok exts →
  Forall2 (λ imp ext, Unmarshal_map (Imp_Ext imp) = Ok ext) imps exts.
Proof.
  revert i exts. induction imps as [|imp imps IH]; intros i exts; simpl.
  - intros [= <-]. constructor.
  - destruct (Unmarshal_map (Imp_Ext imp)) as [ext|] eqn:Hext; [|done].
    destruct (parseImpExts_from (S i) imps) as [exts'|] eqn:Hexts; [|done].
    simpl. intros [= <-]. constructor; [done|]. by eapply IH.
Qed.

Lemma parsed_entries_docs (imps : list Imp) (impExts : list (gmap string RawMessage)) :
  parseImpExts imps = Ok impExts → Forall (λ e, docs e.2) (zip imps impExts).
Proof.
  intros Hparse%parseImpExts_from_Ok.
  induction Hparse as [|imp ext imps exts Hext _ IH]; simpl; constructor; [|done].
  by eapply Unmarshal_map_docs.
Qed.

End PartitionFacts.

Section PartitionTheorems.
Context `{RangeOrder}.

(** [splitImps] on a list that decodes. *)
Lemma splitImps_spec (imps : list Imp) (impExts : list (gmap string RawMessage)) :
  parseImpExts imps = Ok impExts →
  ∃ out,
    splitImps imps = (Some out, [])
    ∧ splitImps_loop imps impExts = (out, [])
    ∧ ∀ b, out !! b = match omap (copy_for b) (zip imps impExts) with
                      | [] => None
                      | l => Some l
                      end.
Proof.
  intros Hparse. unfold splitImps, splitImps_loop. rewrite Hparse.
  destruct (splitImps_loop_spec (zip imps impExts)
              (parsed_entries_docs _ _ Hparse) ∅ []) as (out & -> & Hout).
  exists out. repeat split. intros b. rewrite Hout, lookup_empty.
  by destruct (omap (copy_for b) (zip imps impExts)).
Qed.







End PartitionTheorems.

Section PartitionClaims.
Context `{RangeOrder}.



(** The error list returned on a list that decodes is [nil] as written in
    the code, and so is the accumulated one. *)
Lemma splitImps_error_list_nil (imps : list Imp)
    (impExts : list (gmap string RawMessage)) :
  parseImpExts imps = Ok impExts → (splitImps imps).2 = [].
Proof. intros Hparse. unfold splitImps. by rewrite Hparse. Qed.

Lemma splitImps_loop_no_errors (imps : list Imp)
    (impExts : list (gmap string RawMessage)) :
  parseImpExts imps = Ok impExts → (splitImps_loop imps impExts).2 = [].
Proof.
  intros Hparse.
  destruct (splitImps_spec imps impExts Hparse) as (out & _ & -> & _). done.
Qed.

(** Handed bytes that are not a JSON text, [sanitizedImpCopy] reports the
    error of the encoder and makes no copy. *)
Lemma sanitizedImpCopy_reports_bad_payload (imp : Imp) (bytes : string) :
  sanitizedImpCopy imp {["bidderA" := raw_bad bytes]} raw_nil raw_nil ∅
  = (∅, [MarshalerError "json: error calling MarshalJSON for type json.RawMessage"]).
Proof.
  unfold sanitizedImpCopy. rewrite strip_bidder_nil.
  pose proof (range_perm _ ({["bidderA" := raw_bad bytes]} : gmap string RawMessage))
    as Hperm.
  rewrite map_to_list_singleton in Hperm. apply Permutation_singleton_r in Hperm.
  rewrite Hperm. reflexivity.
Qed.

End PartitionClaims.




(** [parseImpExts] stops at the first extension that fails to decode. *)
Lemma parseImpExts_from_first_failure (imps : list Imp) :
  ∀ (start i : nat) (imp : Imp),
    imps !! i = Some imp → is_Err (Unmarshal_map (Imp_Ext imp)) →
    ∃ k bad err,
      k ≤ i ∧ imps !! k = Some bad ∧ Unmarshal_map (Imp_Ext bad) = Err err
      ∧ (∀ j good, j < k → imps !! j = Some good →
                   is_Ok (Unmarshal_map (Imp_Ext good)))
      ∧ ∀ siblings,
          parseImpExts_from start (take (S k) imps ++ siblings)
          = Err (unpack_error (start + k) err).
Proof.
  induction imps as [|imp0 imps IH]; intros start i imp Hi Hbad; [done|].
  destruct (Unmarshal_map (Imp_Ext imp0)) as [ext0|err0] eqn:Hext0.
  - destruct i as [|i].
    { simpl in Hi. injection Hi as <-. destruct Hbad as [e He]. congruence. }
    destruct (IH (S start) i imp Hi Hbad) as (k & bad & err & Hk & Hbadk & Herr & Hbefore & Hparse).
    exists (S k), bad, err. split_and!; [lia|done|done| |].
    + intros [|j] good Hj Hgood.
      * simpl in Hgood. injection Hgood as <-. by exists ext0.
      * apply (Hbefore j); [lia|done].
    + intros siblings. cbn [take app parseImpExts_from]. rewrite Hext0.
      rewrite Hparse. simpl. by rewrite Nat.add_succ_r.
  - exists 0, imp0, err0. split_and!; [lia|done|done| |].
    + intros j good Hj. lia.
    + intros siblings. cbn [take app parseImpExts_from]. rewrite Hext0.
      by rewrite Nat.add_0_r.
Qed.

Section DecodeFailure.
Context `{RangeOrder}.

(** C7. When the extension of some impression fails to decode, [splitImps]
    returns no map and one error, whose message names the index of the first
    impression that fails; the impressions after it play no part in the
    result. *)
Theorem splitImps_decode_failure (imps : list Imp) (i : nat) (imp : Imp) :
  imps !! i = Some imp → is_Err (Unmarshal_map (Imp_Ext imp)) →
  ∃ k bad err,
    k ≤ i ∧ imps !! k = Some bad ∧ Unmarshal_map (Imp_Ext bad) = Err err
    ∧ (∀ j good, j < k → imps !! j = Some good →
                 is_Ok (Unmarshal_map (Imp_Ext good)))
    ∧ splitImps imps
      = (None, [ErrorString ("Error unpacking extensions for Imp["
                             +:+ itoa (Z.of_nat k) +:+ "]: " +:+ Error err)])
    ∧ ∀ siblings, splitImps (take (S k) imps ++ siblings) = splitImps imps.
Proof.
  intros Hi Hbad.
  destruct (parseImpExts_from_first_failure imps 0 i imp Hi Hbad)
    as (k & bad & err & Hk & Hbadk & Herr & Hbefore & Hparse).
  exists k, bad, err. split_and!; try done.
  - unfold splitImps, parseImpExts.
    rewrite <- (take_drop (S k) imps) at 1. by rewrite Hparse.
  - intros siblings. unfold splitImps, parseImpExts.
    rewrite <- (take_drop (S k) imps) at 2. by rewrite !Hparse.
Qed.

End DecodeFailure.

(** The theorem at a list whose second impression is malformed. *)
Lemma splitImps_decode_failure_witness :
  [partition_imp; malformed_imp] !! 1 = Some malformed_imp
  ∧ is_Err (Unmarshal_map (Imp_Ext malformed_imp))
  ∧ ∃ k bad err,
      k ≤ 1 ∧ [partition_imp; malformed_imp] !! k = Some bad
      ∧ Unmarshal_map (Imp_Ext bad) = Err err
      ∧ @splitImps canonical_order [partition_imp; malformed_imp]
        = (None, [ErrorString ("Error unpacking extensions for Imp["
                               +:+ itoa (Z.of_nat k) +:+ "]: " +:+ Error err)]).
Proof.
  assert (is_Err (Unmarshal_map (Imp_Ext malformed_imp))) as Hbad
    by (eexists; reflexivity).
  split; [reflexivity|]. split; [exact Hbad|].
  destruct (@splitImps_decode_failure canonical_order
              [partition_imp; malformed_imp] 1 malformed_imp eq_refl Hbad)
    as (k & bad & err & Hk & Hat & Herr & _ & Hsplit & _).
  exists k, bad, err. split_and!; assumption.
Defined.

(** ** Supply chains *)

Section SupplyChains.
Implicit Types (m : gmap string ExtRequestPrebidSChainSChain).

(** The two loops of [BidderToPrebidSChains]: they succeed exactly when no
    name is met twice, and then map every declared name to its chain. *)
Lemma schain_bidders_spec (sc : ExtRequestPrebidSChainSChain) (bs : list string) :
  ∀ m,
    match schain_bidders sc bs m with
    | Ok m' =>
        NoDup bs ∧ (∀ b, b ∈ bs → m !! b = None)
        ∧ ∀ b c, m' !! b = Some c ↔ m !! b = Some c ∨ (b ∈ bs ∧ c = sc)
    | Err e =>
        ∃ b, e = multiple_schains b ∧ b ∈ bs ∧ (is_Some (m !! b) ∨ ¬ NoDup bs)
    end.
Proof.
  induction bs as [|b bs IH]; intros m; simpl.
  - split_and!; [constructor|by intros b ?%elem_of_nil|].
    intros b c. split; [by left|]. intros [?|[[]%elem_of_nil _]]. done.
  - destruct (m !! b) as [c0|] eqn:Hb.
    { exists b. split_and!; [done|left|left; by eexists]. }
    specialize (IH (<[b := sc]> m)).
    destruct (schain_bidders sc bs (<[b := sc]> m)) as [m'|e].
    + destruct IH as (Hnd & Hfresh & Hm').
      assert (b ∉ bs) as Hnotin.
      { intros Hin. specialize (Hfresh b Hin). by rewrite lookup_insert_eq in Hfresh. }
      split_and!.
      * by constructor.
      * intros b' [->|Hin]%elem_of_cons; [done|].
        specialize (Hfresh b' Hin). rewrite lookup_insert_None in Hfresh. tauto.
      * intros b' c. rewrite Hm', lookup_insert_Some, elem_of_cons.
        split.
        -- intros [[[<- <-]|[Hne Hc]]|[Hin ->]]; eauto.
        -- intros [Hc|[[->|Hin] ->]]; eauto.
           ++ left. right. split; [|done]. intros <-. congruence.
    + destruct IH as (b' & -> & Hin & Hwhy). exists b'.
      split_and!; [done|by right|].
      destruct Hwhy as [Hsome|Hdup].
      * rewrite lookup_insert_is_Some in Hsome.
        destruct Hsome as [<-|[_ Hsome]]; [|by left].
        right. intros Hnd%NoDup_cons. tauto.
      * right. intros Hnd%NoDup_cons. tauto.
Qed.

Lemma schain_wrappers_spec (ws : list ExtRequestPrebidSChain) :
  ∀ m,
    match schain_wrappers ws m with
    | Ok m' =>
        NoDup (declared_bidders ws) ∧ (∀ b, b ∈ declared_bidders ws → m !! b = None)
        ∧ ∀ b c, m' !! b = Some c
                 ↔ m !! b = Some c ∨ ∃ w, w ∈ ws ∧ b ∈ Bidders w ∧ SChain w = c
    | Err e =>
        ∃ b, e = multiple_schains b ∧ b ∈ declared_bidders ws
             ∧ (is_Some (m !! b) ∨ ¬ NoDup (declared_bidders ws))
    end.
Proof.
  unfold declared_bidders.
  induction ws as [|w ws IH]; intros m; cbn [schain_wrappers mbind list_bind].
  - split_and!; [constructor|by intros b ?%elem_of_nil|].
    intros b c. split; [by left|]. intros [?|(w & []%elem_of_nil & _)]. done.
  - fold (ws ≫= Bidders).
    pose proof (schain_bidders_spec (SChain w) (Bidders w) m) as Hw.
    destruct (schain_bidders (SChain w) (Bidders w) m) as [m1|e]; cbn [rbind].
    + destruct Hw as (Hnd1 & Hfresh1 & Hm1). specialize (IH m1).
      destruct (schain_wrappers ws m1) as [m'|e].
      * destruct IH as (Hnd & Hfresh & Hm'). split_and!.
        -- apply NoDup_app. split_and!; [done| |done].
           intros b Hb Hin. specialize (Hfresh b Hin).
           assert (m1 !! b = Some (SChain w)) as Hsome by (apply Hm1; eauto).
           congruence.
        -- intros b [Hb|Hb]%elem_of_app; [by apply Hfresh1|].
           specialize (Hfresh b Hb). destruct (m !! b) as [c|] eqn:Hc; [|done].
           assert (m1 !! b = Some c) as Hsome by (apply Hm1; eauto). congruence.
        -- intros b c. rewrite Hm', Hm1. split.
           ++ intros [[Hc|[Hb ->]]|(w' & Hw' & Hb & Hc)]; [by left|right..].
              ** exists w. split_and!; [left|done|done].
              ** exists w'. split_and!; [by right|done|done].
           ++ intros [Hc|(w' & Hw' & Hb & Hc)]; [eauto|].
              apply elem_of_cons in Hw' as [->|Hw']; eauto 10.
      * destruct IH as (b & -> & Hin & Hwhy). exists b.
        split_and!; [done|apply elem_of_app; by right|].
        destruct Hwhy as [[c Hc]|Hdup].
        -- destruct (proj1 (Hm1 b c) Hc) as [Hc'|[Hb _]]; [left; by eexists|].
           right. intros Hnd%NoDup_app. destruct Hnd as (_ & Hdisj & _).
           by apply (Hdisj b).
        -- right. intros Hnd%NoDup_app. tauto.
    + destruct Hw as (b & -> & Hin & Hwhy). exists b.
      split_and!; [done|apply elem_of_app; by left|].
      destruct Hwhy as [?|Hdup]; [by left|].
      right. intros Hnd%NoDup_app. tauto.
Qed.


Lemma BidderToPrebidSChains_NoDup (ext : ExtRequest)
    (m : gmap string ExtRequestPrebidSChainSChain) :
  BidderToPrebidSChains (Some ext) = Ok m →
  NoDup (declared_bidders (SChains (ReqPrebid ext)))
  ∧ ∀ b c, m !! b = Some c
           ↔ ∃ w, w ∈ SChains (ReqPrebid ext) ∧ b ∈ Bidders w ∧ SChain w = c.
Proof.
  unfold BidderToPrebidSChains. intros Hm.
  pose proof (schain_wrappers_spec (SChains (ReqPrebid ext)) ∅) as Hspec.
  rewrite Hm in Hspec. destruct Hspec as (Hnd & _ & Hlookup). split; [done|].
  intros b c. rewrite Hlookup, lookup_empty. split; [by intros [?|?]|by right].
Qed.


Lemma BidderToPrebidSChains_distinct (ext : ExtRequest) :
  NoDup (declared_bidders (SChains (ReqPrebid ext))) →
  is_Ok (BidderToPrebidSChains (Some ext)).
Proof.
  unfold BidderToPrebidSChains. intros Hnd.
  pose proof (schain_wrappers_spec (SChains (ReqPrebid ext)) ∅) as Hspec.
  destruct (schain_wrappers (SChains (ReqPrebid ext)) ∅) as [m|e]; [by eexists|].
  destruct Hspec as (b & _ & _ & [[c Hc]|Hdup]); [|done].
  by rewrite lookup_empty in Hc.
Qed.

End SupplyChains.

(** The map does not depend on the order of the associations. *)
Lemma BidderToPrebidSChains_order (ext ext' : ExtRequest)
    (m : gmap string ExtRequestPrebidSChainSChain) :
  SChains (ReqPrebid ext) ≡ₚ SChains (ReqPrebid ext') →
  BidderToPrebidSChains (Some ext) = Ok m →
  BidderToPrebidSChains (Some ext') = Ok m.
Proof.
  intros Hperm Hm. apply BidderToPrebidSChains_NoDup in Hm as [Hnd Hlookup].
  assert (NoDup (declared_bidders (SChains (ReqPrebid ext')))) as Hnd'.
  { unfold declared_bidders in *. by rewrite <- Hperm. }
  destruct (BidderToPrebidSChains_distinct ext' Hnd') as [m' Hm'].
  rewrite Hm'. f_equal. apply BidderToPrebidSChains_NoDup in Hm' as [_ Hlookup'].
  apply map_eq. intros b. apply option_eq. intros c.
  rewrite Hlookup, Hlookup'. by setoid_rewrite Hperm.
Qed.

(** ** Source and user of a bidder request *)

(** The re-encoded user extension decodes to what was encoded and has no
    [prebid] member. *)
Lemma Unmarshal_Marshal_ExtUser (userExt : ExtUser) (data : RawMessage) :
  Marshal_ExtUser (without_prebid userExt) = Ok data →
  Unmarshal_ExtUser data = Ok (without_prebid userExt)
  ∧ ∀ m, Unmarshal_map data = Ok m → m !! "prebid" = None.
Proof.
  intros [= <-]. destruct userExt as [consent prebid [[id keyv pref]|]];
    unfold without_prebid, nonempty_string; simpl;
    (case_bool_decide as Hc; [subst consent|]);
    (split; [|intros m [= <-]]); vm_compute; reflexivity.
Qed.

Lemma scan_len0 (data : RawMessage) (v : value) : scan data = Ok v → len0 data = false.
Proof. destruct data as [|bytes|v']; simpl; [done|by case_bool_decide|done]. Qed.

(** C3. For a user whose extension decodes with a [prebid] block,
    [extractBuyerUIDs] returns the buyer identifiers of the block and
    rewrites the extension of the shared user object: the new extension has
    no [prebid] member; when the consent string is non-empty or the
    digitrust block is present it decodes to the same consent and digitrust;
    when neither is there it is nil. *)
Theorem extractBuyerUIDs_strips_prebid (h : Heap) (p : ptr) (u : User)
    (userExt : ExtUser) (prebid : ExtUserPrebid) :
  users h !! p = Some u →
  Unmarshal_ExtUser (User_Ext u) = Ok userExt →
  Prebid userExt = Some prebid →
  ∃ newExt,
    extractBuyerUIDs (Some p) h
    = (Ok (BuyerUIDs prebid),
       {| users := <[p := User_with_Ext u newExt]> (users h); sources := sources h |})
    ∧ (∀ m, Unmarshal_map newExt = Ok m → m !! "prebid" = None)
    ∧ (Consent userExt ≠ EmptyString ∨ is_Some (DigiTrust userExt) →
       Unmarshal_ExtUser newExt = Ok (without_prebid userExt))
    ∧ (Consent userExt = EmptyString → DigiTrust userExt = None → newExt = raw_nil).
Proof.
  intros Hu Hext Hprebid.
  assert (len0 (User_Ext u) = false) as Hlen.
  { unfold Unmarshal_ExtUser, Unmarshal_struct in Hext.
    destruct (scan (User_Ext u)) as [v|] eqn:Hscan; [|done]. by eapply scan_len0. }
  unfold extractBuyerUIDs, bind, get_user, set_user, ret.
  rewrite Hu, Hlen, Hext, Hprebid.
  assert (∃ data, Marshal_ExtUser (without_prebid userExt) = Ok data)
    as [data Hdata] by (by eexists).
  destruct (Unmarshal_Marshal_ExtUser userExt data Hdata) as [Hround Hnone].
  fold (without_prebid userExt). rewrite Hdata.
  destruct (negb (bool_decide (Consent userExt = EmptyString))
            || bool_decide (is_Some (DigiTrust userExt))) eqn:Hkeep.
  - exists data. split_and!; [|done|done|].
    { cbn [without_prebid Consent DigiTrust]. by rewrite Hkeep. }
    intros Hc Hd. rewrite Hc, Hd in Hkeep.
    rewrite bool_decide_eq_true_2 in Hkeep by done.
    rewrite bool_decide_eq_false_2 in Hkeep by (by intros [? ?]). done.
  - exists raw_nil. split_and!; [|done| |done].
    { cbn [without_prebid Consent DigiTrust]. by rewrite Hkeep. }
    apply orb_false_iff in Hkeep as [Hc Hd]. apply negb_false_iff in Hc.
    apply bool_decide_eq_true_1 in Hc. apply bool_decide_eq_false_1 in Hd.
    intros [?|?]; done.
Qed.

(** The theorem at the user of the examples. *)
Lemma extractBuyerUIDs_strips_prebid_witness :
  users shared_heap !! 0 = Some shared_user
  ∧ Unmarshal_ExtUser (User_Ext shared_user) = Ok decoded_user_ext
  ∧ ∃ newExt,
      extractBuyerUIDs (Some 0) shared_heap
      = (Ok explicit_uids,
         {| users := [User_with_Ext shared_user newExt]; sources := [] |})
      ∧ Unmarshal_ExtUser newExt = Ok (without_prebid decoded_user_ext).
Proof.
  assert (Unmarshal_ExtUser (User_Ext shared_user) = Ok decoded_user_ext) as Hdec
    by (vm_compute; reflexivity).
  split; [reflexivity|]. split; [exact Hdec|].
  destruct (extractBuyerUIDs_strips_prebid shared_heap 0 shared_user decoded_user_ext
              {| BuyerUIDs := explicit_uids |} eq_refl Hdec eq_refl)
    as (newExt & Hrun & _ & Hkeep & _).
  exists newExt. split; [exact Hrun|]. apply Hkeep. left. discriminate.
Defined.

Lemma Req_with_User_same (req : BidRequest) : Req_with_User req (Req_User req) = req.
Proof. by destruct req. Qed.

(** [copyWithBuyerUID] allocates when the template has no identifier and
    returns the pointer it was given otherwise. *)
Lemma copyWithBuyerUID_spec (user : option ptr) (buyerUID : string) (h : Heap) :
  (∀ p, user = Some p → is_Some (users h !! p)) →
  let tmpl := default zero_User (user ≫= (λ p, users h !! p)) in
  if decide (User_BuyerUID tmpl = EmptyString)
  then copyWithBuyerUID user buyerUID h
       = (length (users h),
          {| users := users h ++ [User_with_BuyerUID tmpl buyerUID];
             sources := sources h |})
  else ∃ p, user = Some p ∧ copyWithBuyerUID user buyerUID h = (p, h).
Proof.
  intros Hvalid. cbn zeta. unfold copyWithBuyerUID, bind, get_user, new_user, ret.
  destruct user as [p|]; cbn [mbind option_bind].
  - destruct (Hvalid p eq_refl) as [u Hu]. rewrite Hu. cbn [from_option id].
    destruct (decide (User_BuyerUID u = EmptyString)) as [Hempty|Hset].
    + by rewrite bool_decide_eq_true_2.
    + rewrite bool_decide_eq_false_2 by done. by exists p.
  - cbn [from_option id].
    destruct (decide (User_BuyerUID zero_User = EmptyString)) as [_|Hset]; [done|].
    by destruct Hset.
Qed.

(** C4. [prepareUser] selects the explicit identifier under the given name if
    there is one, else the synced identifier under the core name if the
    store has one, else nothing, in which case request and store are left as
    they are. With an identifier selected, no object of the store is
    written: if the template user has no buyer identifier (or there is no
    template) the request points to a new object, the template with the
    identifier set; otherwise request and store are unchanged. The boolean
    returned is the one the sync store gave, whatever was selected. *)
Theorem prepareUser_precedence (req : BidRequest) (givenBidder : string)
    (coreBidder : BidderName) (explicitBuyerUIDs : gmap string string)
    (usersyncs : IdFetcher) (h : Heap) :
  (∀ p, Req_User req = Some p → is_Some (users h !! p)) →
  ∃ req' h',
    prepareUser req givenBidder coreBidder explicitBuyerUIDs usersyncs h
    = ((req', (GetId usersyncs coreBidder).2), h')
    ∧ (∀ p u, users h !! p = Some u → users h' !! p = Some u)
    ∧ sources h' = sources h
    ∧ (∀ id, explicitBuyerUIDs !! givenBidder = Some id →
             selected_BuyerUID givenBidder coreBidder explicitBuyerUIDs usersyncs
             = Some id)
    ∧ (explicitBuyerUIDs !! givenBidder = None →
       selected_BuyerUID givenBidder coreBidder explicitBuyerUIDs usersyncs
       = if (GetId usersyncs coreBidder).2
         then Some (GetId usersyncs coreBidder).1 else None)
    ∧ match selected_BuyerUID givenBidder coreBidder explicitBuyerUIDs usersyncs with
      | None => req' = req ∧ h' = h
      | Some id =>
          let tmpl := default zero_User (template_user req h) in
          if decide (User_BuyerUID tmpl = EmptyString)
          then req' = Req_with_User req (Some (length (users h)))
               ∧ users h' = users h ++ [User_with_BuyerUID tmpl id]
          else req' = req ∧ h' = h
      end.
Proof.
  intros Hvalid. unfold prepareUser, selected_BuyerUID, template_user.
  destruct (GetId usersyncs coreBidder) as [cookieId hadCookie]. cbn [fst snd].
  assert (∀ id,
            ∃ req' h',
              bind (copyWithBuyerUID (Req_User req) id)
                (λ u, ret (Req_with_User req (Some u), hadCookie)) h
              = (req', hadCookie, h')
              ∧ (∀ p u, users h !! p = Some u → users h' !! p = Some u)
              ∧ sources h' = sources h
              ∧ let tmpl := default zero_User (Req_User req ≫= (λ p, users h !! p)) in
                if decide (User_BuyerUID tmpl = EmptyString)
                then req' = Req_with_User req (Some (length (users h)))
                     ∧ users h' = users h ++ [User_with_BuyerUID tmpl id]
                else req' = req ∧ h' = h) as Hcopy.
  { intros id. pose proof (copyWithBuyerUID_spec (Req_User req) id h Hvalid) as Hspec.
    unfold bind, ret. cbn zeta in *.
    destruct (decide (User_BuyerUID
                        (default zero_User (Req_User req ≫= (λ p, users h !! p)))
                      = EmptyString)) as [Hempty|Hset].
    - rewrite Hspec. eexists _, _. split_and!; [done| |done|done|done].
      intros p u Hp. simpl. by apply lookup_app_l_Some.
    - destruct Hspec as (p & Hp & ->). eexists _, _.
      split_and!; [done|done|done| |done].
      by rewrite <- Hp, Req_with_User_same. }
  destruct (explicitBuyerUIDs !! givenBidder) as [id|].
  - destruct (Hcopy id) as (req' & h' & -> & Hkeep & Hsrc & Hres).
    exists req', h'. split_and!; try done.
  - destruct hadCookie.
    + destruct (Hcopy cookieId) as (req' & h' & -> & Hkeep & Hsrc & Hres).
      exists req', h'. split_and!; try done.
    + exists req, h. split_and!; try done.
Qed.

Lemma template_user_valid (imps : list Imp) :
  ∀ p, Req_User (template_request imps) = Some p → is_Some (users shared_heap !! p).
Proof. intros p [= <-]. by eexists. Qed.

(** The theorem for bidderA, which has an explicit identifier and no sync. *)
Lemma prepareUser_precedence_witness :
  (∀ p, Req_User (template_request [partition_imp]) = Some p →
        is_Some (users shared_heap !! p))
  ∧ ∃ req' h',
      prepareUser (template_request [partition_imp]) "bidderA" "bidderA"
        explicit_uids sync_store shared_heap = ((req', false), h')
      ∧ Req_User req' = Some 1
      ∧ users h' = [shared_user; User_with_BuyerUID shared_user "uid123"].
Proof.
  split; [apply template_user_valid|].
  destruct (prepareUser_precedence (template_request [partition_imp]) "bidderA"
              "bidderA" explicit_uids sync_store shared_heap
              (template_user_valid [partition_imp]))
    as (req' & h' & Hrun & _ & _ & _ & _ & Hsel).
  exists req', h'. split; [exact Hrun|].
  change (req' = Req_with_User (template_request [partition_imp]) (Some 1)
          ∧ users h' = [shared_user; User_with_BuyerUID shared_user "uid123"]) in Hsel.
  destruct Hsel as [-> ->]. split; reflexivity.
Defined.

(** C6. [prepareSource] resolves the chain of the bidder if the map has one,
    else the wildcard chain, and the map does not depend on the order in
    which the request declares its chains. With no chain resolved, request
    and store are left as they are; with one, the request points to a source
    object (a new zero object if it had none) whose extension is the
    encoding of the chain, the other fields of the object and all other
    objects being unchanged. *)
Theorem prepareSource_resolution (req : BidRequest) (bidder : string)
    (sChainsByBidder : gmap string ExtRequestPrebidSChainSChain) (h : Heap) :
  (∀ p, Req_Source req = Some p → is_Some (sources h !! p)) →
  (∀ c, sChainsByBidder !! bidder = Some c →
        selected_SChain bidder sChainsByBidder = Some c)
  ∧ (sChainsByBidder !! bidder = None →
     selected_SChain bidder sChainsByBidder = sChainsByBidder !! sChainWildCard)
  ∧ (∀ ext ext',
        SChains (ReqPrebid ext) ≡ₚ SChains (ReqPrebid ext') →
        BidderToPrebidSChains (Some ext) = Ok sChainsByBidder →
        BidderToPrebidSChains (Some ext') = Ok sChainsByBidder)
  ∧ match selected_SChain bidder sChainsByBidder with
    | None => prepareSource req bidder sChainsByBidder h = (req, h)
    | Some selectedSChain =>
        let src := default (length (sources h)) (Req_Source req) in
        let before := default zero_Source (Req_Source req ≫= (λ p, sources h !! p)) in
        ∃ h',
          prepareSource req bidder sChainsByBidder h
          = (Req_with_Source req (Some src), h')
          ∧ users h' = users h
          ∧ sources h' !! src
            = Some (Source_with_Ext before
                      (raw_doc (encode_SChain
                                  {| Bidders := []; SChain := selectedSChain |})))
          ∧ ∀ q, q ≠ src → sources h' !! q = sources h !! q
    end.
Proof.
  intros Hvalid. unfold selected_SChain. split_and!.
  - by intros c ->.
  - by intros ->.
  - intros ext ext'. apply BidderToPrebidSChains_order.
  - unfold prepareSource.
    assert (∀ c,
      let src := default (length (sources h)) (Req_Source req) in
      let before := default zero_Source (Req_Source req ≫= (λ p, sources h !! p)) in
      ∃ h',
        bind (match Req_Source req with
              | Some p => ret p
              | None => new_source zero_Source
              end)
          (λ src,
             match Marshal_SChain {| Bidders := []; SChain := c |} with
             | Ok sourceExt =>
                 bind (get_source src)
                   (λ s, match s with
                         | Some s =>
                             bind (set_source src (Source_with_Ext s sourceExt))
                               (λ _, ret (Req_with_Source req (Some src)))
                         | None => ret (Req_with_Source req (Some src))
                         end)
             | Err _ => ret (Req_with_Source req (Some src))
             end) h
        = (Req_with_Source req (Some src), h')
        ∧ users h' = users h
        ∧ sources h' !! src
          = Some (Source_with_Ext before
                    (raw_doc (encode_SChain {| Bidders := []; SChain := c |})))
        ∧ ∀ q, q ≠ src → sources h' !! q = sources h !! q) as Hwrite.
    { intros c. cbn zeta. unfold bind, ret, new_source, get_source, set_source.
      destruct (Req_Source req) as [p|] eqn:Hp; simpl.
      - destruct (Hvalid p eq_refl) as [s Hs]. rewrite Hs. eexists.
        split_and!; [done|done| |].
        + simpl. apply list_lookup_insert_eq. by eapply lookup_lt_Some.
        + intros q Hq. simpl. by apply list_lookup_insert_ne.
      - rewrite lookup_app_r, Nat.sub_diag by done. simpl. eexists.
        split_and!; [done|done| |].
        + simpl. rewrite list_lookup_insert_eq; [|rewrite length_app; simpl; lia].
          done.
        + intros q Hq. simpl. rewrite list_lookup_insert_ne by done.
          destruct (decide (q < length (sources h))) as [Hlt|Hge].
          * by rewrite lookup_app_l.
          * rewrite lookup_app_r by lia.
            rewrite (lookup_ge_None_2 (sources h)) by lia.
            destruct (q - length (sources h)) as [|k] eqn:Hk; [lia|done]. }
    destruct (sChainsByBidder !! bidder) as [c|].
    + destruct (sChainsByBidder !! sChainWildCard); apply Hwrite.
    + destruct (sChainsByBidder !! sChainWildCard) as [c|]; [apply Hwrite|done].
Qed.

Lemma no_source_valid (imps : list Imp) :
  ∀ p, Req_Source (template_request imps) = Some p → is_Some (sources shared_heap !! p).
Proof. intros p [=]. Qed.

(** The theorem at the chains of the example: bidderA gets chain Y, any
    other bidder chain X. *)
Lemma prepareSource_resolution_witness :
  (∀ p, Req_Source (template_request []) = Some p →
        is_Some (sources shared_heap !! p))
  ∧ selected_SChain "bidderA" chains_by_bidder = Some chain_Y
  ∧ selected_SChain "bidderB" chains_by_bidder = Some chain_X
  ∧ ∃ h',
      prepareSource (template_request []) "bidderA" chains_by_bidder shared_heap
      = (Req_with_Source (template_request []) (Some 0), h')
      ∧ sources h' !! 0
        = Some (Source_with_Ext zero_Source
                  (raw_doc (encode_SChain {| Bidders := []; SChain := chain_Y |}))).
Proof.
  split; [apply no_source_valid|]. split; [reflexivity|]. split; [reflexivity|].
  destruct (prepareSource_resolution (template_request []) "bidderA" chains_by_bidder
              shared_heap (no_source_valid [])) as (_ & _ & _ & Hsel).
  change (∃ h',
            prepareSource (template_request []) "bidderA" chains_by_bidder shared_heap
            = (Req_with_Source (template_request []) (Some 0), h')
            ∧ users h' = users shared_heap
            ∧ sources h' !! 0
              = Some (Source_with_Ext zero_Source
                        (raw_doc (encode_SChain
                                    {| Bidders := []; SChain := chain_Y |})))
            ∧ ∀ q, q ≠ 0 → sources h' !! q = sources shared_heap !! q) in Hsel.
  destruct Hsel as (h' & Hrun & _ & Hsrc & _). exists h'. split; assumption.
Defined.

(** ** Privacy flags and cache instructions *)

(** C8. For each of the two regimes, the enabled flag is the override of the
    account for the integration type when the account has one, whatever the
    system default, and the system default otherwise. *)
Theorem privacy_enabled_resolution (account : config.Account)
    (privacyConfig : config.Privacy) (integrationType : config.IntegrationType) :
  (∀ override,
      config.GDPR_EnabledForIntegrationType (config.Account_GDPR account)
        integrationType = Some override →
      gdprEnabled account privacyConfig integrationType = override)
  ∧ (config.GDPR_EnabledForIntegrationType (config.Account_GDPR account)
       integrationType = None →
     gdprEnabled account privacyConfig integrationType
     = config.GDPR_Enabled (config.Privacy_GDPR privacyConfig))
  ∧ (∀ override,
      config.CCPA_EnabledForIntegrationType (config.Account_CCPA account)
        integrationType = Some override →
      ccpaEnabled account privacyConfig integrationType = override)
  ∧ (config.CCPA_EnabledForIntegrationType (config.Account_CCPA account)
       integrationType = None →
     ccpaEnabled account privacyConfig integrationType
     = config.CCPA_Enforce (config.Privacy_CCPA privacyConfig)).
Proof.
  unfold gdprEnabled, ccpaEnabled. split_and!.
  - by intros override ->.
  - by intros ->.
  - by intros override ->.
  - by intros ->.
Qed.

(** The theorem at an account that overrides the consent regime for AMP. *)
Lemma privacy_enabled_resolution_witness :
  gdprEnabled amp_only_account system_privacy config.IntegrationTypeAMP = false
  ∧ gdprEnabled amp_only_account system_privacy config.IntegrationTypeWeb = true
  ∧ ccpaEnabled amp_only_account system_privacy config.IntegrationTypeWeb = true.
Proof.
  split_and!.
  - apply (proj1 (privacy_enabled_resolution amp_only_account system_privacy
                    config.IntegrationTypeAMP)). reflexivity.
  - apply (proj1 (proj2 (privacy_enabled_resolution amp_only_account system_privacy
                           config.IntegrationTypeWeb))). reflexivity.
  - apply (proj2 (proj2 (proj2 (privacy_enabled_resolution amp_only_account
                                  system_privacy config.IntegrationTypeWeb)))).
    reflexivity.
Defined.

(** C10. The [returnCreative] flag of the cache instructions is true when the
    request specifies neither [prebid.cache.bids.returnCreative] nor
    [prebid.cache.vastxml.returnCreative], the specified value when it
    specifies one of them, and the disjunction of the two values when it
    specifies both. *)
Theorem returnCreative_resolution (requestExt : option ExtRequest) :
  returnCreative (getExtCacheInstructions requestExt)
  = match bids_returnCreative requestExt, vastxml_returnCreative requestExt with
    | None, None => true
    | Some b, None => b
    | None, Some v => v
    | Some b, Some v => b || v
    end.
Proof.
  unfold getExtCacheInstructions, bids_returnCreative, vastxml_returnCreative.
  destruct requestExt as [[[aliases cache schains debug]]|]; [|done].
  destruct cache as [[bids vast]|]; [|done].
  destruct bids as [[[rcb|]]|], vast as [[[rcv|]]|]; reflexivity.
Qed.


(** ** The generic adapter *)

(** [getMediaTypeForImp] finds the first impression with the id. *)
Lemma getMediaTypeForImp_matching (impID : string) (imps : list Imp) :
  getMediaTypeForImp impID imps
  = match matching_imp impID imps with
    | Some imp => Ok (media_type imp)
    | None => Err (BadInput ("Failed to find impression " +:+ dquote +:+ impID
                             +:+ dquote +:+ " "))
    end.
Proof.
  unfold matching_imp. induction imps as [|imp imps IH]; [reflexivity|].
  cbn [getMediaTypeForImp]. rewrite filter_cons. case_bool_decide as Hid.
  - rewrite decide_True by done. simpl. unfold media_type.
    by destruct (Imp_Banner imp), (Imp_Video imp).
  - rewrite decide_False by done. exact IH.
Qed.

(** The loops of [MakeBids] keep the bids that name an impression, in
    order. *)
Lemma bid_fold (req : BidRequest) (bids : list Bid) :
  ∀ resp errs,
    BidderResponse_Bids (foldl (bid_step req) (resp, errs) bids).1
    = BidderResponse_Bids resp ++ omap (typed_bid (Req_Imp req)) bids.
Proof.
  induction bids as [|bid bids IH]; intros resp errs.
  - simpl. by rewrite app_nil_r.
  - cbn [foldl]. destruct (bid_step req (resp, errs) bid) as [resp' errs'] eqn:Hstep.
    rewrite IH. cbn [omap list_omap]. fold (omap (typed_bid (Req_Imp req)) bids).
    unfold bid_step in Hstep. rewrite getMediaTypeForImp_matching in Hstep.
    unfold typed_bid at 2.
    destruct (matching_imp (Bid_ImpID bid) (Req_Imp req)) as [imp|];
      injection Hstep as <- <-; simpl; [|done].
    by rewrite <- app_assoc.
Qed.

Lemma seat_fold (req : BidRequest) (seats : list SeatBid) :
  ∀ acc,
    BidderResponse_Bids (foldl (seat_step req) acc seats).1
    = BidderResponse_Bids acc.1
      ++ omap (typed_bid (Req_Imp req)) (seats ≫= SeatBid_Bid).
Proof.
  induction seats as [|sb seats IH]; intros [resp errs].
  - simpl. by rewrite app_nil_r.
  - cbn [foldl]. rewrite IH. unfold seat_step.
    rewrite bid_fold. cbn [mbind list_bind fst]. fold (seats ≫= SeatBid_Bid).
    by rewrite omap_app, app_assoc.
Qed.

(** C9. [MakeBids] answers status 400 with no response and one [BadInput]
    error, any status other than 200, 204 and 400 with no response and one
    [BadServerResponse] error, status 204 with no response and no error; on
    status 200 with a body that decodes it returns a response whose bids are
    the bids of the body that name an impression of the request, each with
    the media type of the first impression it names. *)
Theorem MakeBids_status_classes (internalRequest : BidRequest)
    (externalRequest : RequestData) (response : ResponseData) :
  (StatusCode response = 400%Z →
   MakeBids internalRequest externalRequest response
   = (None, [BadInput (unexpected_status 400)]))
  ∧ (StatusCode response ≠ 200%Z → StatusCode response ≠ 204%Z →
     StatusCode response ≠ 400%Z →
     MakeBids internalRequest externalRequest response
     = (None, [BadServerResponse (unexpected_status (StatusCode response))]))
  ∧ (StatusCode response = 204%Z →
     MakeBids internalRequest externalRequest response = (None, []))
  ∧ (StatusCode response = 200%Z →
     ∀ bidResp,
       Unmarshal_BidResponse (Resp_Body response) = Ok bidResp →
       ∃ bidResponse errs,
         MakeBids internalRequest externalRequest response = (Some bidResponse, errs)
         ∧ BidderResponse_Bids bidResponse
           = omap (typed_bid (Req_Imp internalRequest))
               (Resp_SeatBid bidResp ≫= SeatBid_Bid)
         ∧ ∀ b, b ∈ BidderResponse_Bids bidResponse →
                ∃ imp,
                  matching_imp (Bid_ImpID (TypedBid_Bid b)) (Req_Imp internalRequest)
                  = Some imp
                  ∧ TypedBid_BidType b = media_type imp).
Proof.
  unfold MakeBids, StatusNoContent, StatusBadRequest, StatusOK. split_and!.
  - intros ->. done.
  - intros H200 H204 H400.
    rewrite !bool_decide_eq_false_2, bool_decide_eq_true_2 by done. done.
  - intros ->. done.
  - intros -> bidResp ->. simpl.
    pose proof (seat_fold internalRequest (Resp_SeatBid bidResp)
                  (NewBidderResponseWithBidsCapacity 5, [])) as Hbids.
    destruct (foldl (seat_step internalRequest) _ (Resp_SeatBid bidResp))
      as [resp' errs'].
    exists resp', errs'. simpl in Hbids. split_and!; [done|done|].
    intros b. rewrite Hbids. intros (bid & _ & Hb)%list_elem_of_omap.
    unfold typed_bid in Hb.
    destruct (matching_imp (Bid_ImpID bid) (Req_Imp internalRequest)) as [imp|] eqn:Himp;
      [|done].
    injection Hb as <-. by exists imp.
Qed.

(** The theorem at responses of each status class. *)
Lemma MakeBids_status_classes_witness :
  MakeBids (template_request [partition_imp; video_imp]) transport_request
    (response_with 400) = (None, [BadInput (unexpected_status 400)])
  ∧ MakeBids (template_request [partition_imp; video_imp]) transport_request
      (response_with 503) = (None, [BadServerResponse (unexpected_status 503)])
  ∧ MakeBids (template_request [partition_imp; video_imp]) transport_request
      (response_with 204) = (None, [])
  ∧ ∃ bidResponse errs,
      MakeBids (template_request [partition_imp; video_imp]) transport_request
        (response_with 200) = (Some bidResponse, errs)
      ∧ TypedBid_BidType <$> BidderResponse_Bids bidResponse
        = [BidTypeVideo; BidTypeBanner].
Proof.
  pose proof (MakeBids_status_classes (template_request [partition_imp; video_imp])
                transport_request) as Hall.
  split_and!.
  - apply (Hall (response_with 400)). reflexivity.
  - apply (Hall (response_with 503)); discriminate.
  - apply (Hall (response_with 204)). reflexivity.
  - destruct (proj2 (proj2 (proj2 (Hall (response_with 200)))) eq_refl _ eq_refl)
      as (bidResponse & errs & Hrun & Hbids & _).
    exists bidResponse, errs. split; [exact Hrun|]. rewrite Hbids.
    vm_compute. reflexivity.
Defined.

(** ** The orchestration *)

Section Orchestration.
Context `{RangeOrder}.



End Orchestration.




(** * Further properties of the code *)

(** ** The loop of the orchestration and the store *)

Lemma prepareSource_eq (req : BidRequest) (bidder : string)
    (chains : gmap string ExtRequestPrebidSChainSChain) (h : Heap) :
  prepareSource req bidder chains h =
  match selected_SChain bidder chains with
  | None => (req, h)
  | Some c =>
      match Req_Source req with
      | Some p =>
          (req,
           match sources h !! p with
           | Some s => {| users := users h;
                          sources := <[p := Source_with_Ext s (source_ext c)]> (sources h) |}
           | None => h
           end)
      | None =>
          (Req_with_Source req (Some (length (sources h))),
           {| users := users h;
              sources := sources h ++ [Source_with_Ext zero_Source (source_ext c)] |})
      end
  end.
Proof.
  assert (∀ c,
    bind (match Req_Source req with
          | Some p => ret p
          | None => new_source zero_Source
          end)
      (λ src,
         match Marshal_SChain {| Bidders := []; SChain := c |} with
         | Ok sourceExt =>
             bind (get_source src)
               (λ s, match s with
                     | Some s =>
                         bind (set_source src (Source_with_Ext s sourceExt))
                           (λ _, ret (Req_with_Source req (Some src)))
                     | None => ret (Req_with_Source req (Some src))
                     end)
         | Err _ => ret (Req_with_Source req (Some src))
         end) h
    = match Req_Source req with
      | Some p =>
          (req,
           match sources h !! p with
           | Some s => {| users := users h;
                          sources := <[p := Source_with_Ext s (source_ext c)]> (sources h) |}
           | None => h
           end)
      | None =>
          (Req_with_Source req (Some (length (sources h))),
           {| users := users h;
              sources := sources h ++ [Source_with_Ext zero_Source (source_ext c)] |})
      end) as Hwrite.
  { intros c. unfold bind, ret, new_source, get_source, set_source, source_ext.
    destruct (Req_Source req) as [p|] eqn:Hp; simpl.
    - assert (Req_with_Source req (Some p) = req) as ->.
      { destruct req; simpl in Hp |- *. unfold Req_with_Source. simpl. by rewrite Hp. }
      by destruct (sources h !! p).
    - rewrite lookup_app_r, Nat.sub_diag by done. simpl. do 2 f_equal.
      replace (length (sources h)) with (length (sources h) + 0) at 1 by lia.
      by rewrite insert_app_r. }
  unfold prepareSource, selected_SChain.
  destruct (chains !! bidder) as [c|].
  - destruct (chains !! sChainWildCard); apply Hwrite.
  - destruct (chains !! sChainWildCard) as [c|]; [apply Hwrite|done].
Qed.

Lemma prepareUser_eq (req : BidRequest) (givenBidder : string)
    (coreBidder : BidderName) (explicit : gmap string string)
    (usersyncs : IdFetcher) (h : Heap) :
  (∀ p, Req_User req = Some p → is_Some (users h !! p)) →
  prepareUser req givenBidder coreBidder explicit usersyncs h =
  match selected_BuyerUID givenBidder coreBidder explicit usersyncs with
  | None => ((req, (GetId usersyncs coreBidder).2), h)
  | Some id =>
      let tmpl := default zero_User (template_user req h) in
      if decide (User_BuyerUID tmpl = EmptyString)
      then ((Req_with_User req (Some (length (users h))), (GetId usersyncs coreBidder).2),
            {| users := users h ++ [User_with_BuyerUID tmpl id]; sources := sources h |})
      else ((req, (GetId usersyncs coreBidder).2), h)
  end.
Proof.
  intros Hvalid. unfold prepareUser, selected_BuyerUID, template_user.
  destruct (GetId usersyncs coreBidder) as [cookieId hadCookie]. cbn [fst snd].
  assert (∀ id,
            bind (copyWithBuyerUID (Req_User req) id)
              (λ u, ret (Req_with_User req (Some u), hadCookie)) h
            = let tmpl := default zero_User (Req_User req ≫= (λ p, users h !! p)) in
              if decide (User_BuyerUID tmpl = EmptyString)
              then ((Req_with_User req (Some (length (users h))), hadCookie),
                    {| users := users h ++ [User_with_BuyerUID tmpl id];
                       sources := sources h |})
              else ((req, hadCookie), h)) as Hcopy.
  { intros id. pose proof (copyWithBuyerUID_spec (Req_User req) id h Hvalid) as Hspec.
    unfold bind, ret. cbn zeta in *.
    destruct (decide (User_BuyerUID
                        (default zero_User (Req_User req ≫= (λ p, users h !! p)))
                      = EmptyString)) as [Hempty|Hset].
    - by rewrite Hspec.
    - destruct Hspec as (p & Hp & ->). by rewrite <- Hp, Req_with_User_same. }
  destruct (explicit !! givenBidder) as [id|]; [apply Hcopy|].
  destruct hadCookie; [apply Hcopy|done].
Qed.



Section Loop.
Context (req : AuctionRequest) (explicit : gmap string string)
  (chains : gmap string ExtRequestPrebidSChainSChain) (reqExt : RawMessage).



End Loop.

Lemma copyWithBuyerUID_sources (user : option ptr) (buyerUID : string) (h : Heap) :
  sources (copyWithBuyerUID user buyerUID h).2 = sources h.
Proof.
  unfold copyWithBuyerUID, bind, get_user, new_user, ret.
  destruct user as [p|]; [|done].
  destruct (users h !! p) as [u|]; [|done]. by case_bool_decide.
Qed.

Lemma prepareUser_sources (req : BidRequest) (givenBidder : string)
    (coreBidder : BidderName) (explicit : gmap string string)
    (usersyncs : IdFetcher) (h : Heap) :
  Req_Source (prepareUser req givenBidder coreBidder explicit usersyncs h).1.1
  = Req_Source req
  ∧ sources (prepareUser req givenBidder coreBidder explicit usersyncs h).2
    = sources h.
Proof.
  unfold prepareUser. destruct (GetId usersyncs coreBidder) as [cookieId hadCookie].
  unfold bind, ret.
  destruct (explicit !! givenBidder) as [id|].
  - pose proof (copyWithBuyerUID_sources (Req_User req) id h) as Hs.
    by destruct (copyWithBuyerUID (Req_User req) id h) as [u h'].
  - destruct hadCookie; [|done].
    pose proof (copyWithBuyerUID_sources (Req_User req) cookieId h) as Hs.
    by destruct (copyWithBuyerUID (Req_User req) cookieId h) as [u h'].
Qed.

Lemma prepareSource_users (req : BidRequest) (bidder : string)
    (chains : gmap string ExtRequestPrebidSChainSChain) (h : Heap) :
  Req_User (prepareSource req bidder chains h).1 = Req_User req
  ∧ users (prepareSource req bidder chains h).2 = users h.
Proof.
  rewrite prepareSource_eq. destruct (selected_SChain bidder chains) as [c|]; [|done].
  destruct (Req_Source req) as [p|]; [|done]. by destruct (sources h !! p).
Qed.

Section LoopStore.
Context (req : AuctionRequest) (explicit : gmap string string)
  (chains : gmap string ExtRequestPrebidSChainSChain) (reqExt : RawMessage).

(** The user part of a round. *)
Lemma bidder_step_user (acc : list BidderRequest) (entry : string * list Imp)
    (h : Heap) :
  (∀ p, Req_User (AR_BidRequest req) = Some p → is_Some (users h !! p)) →
  ∃ br new,
    (bidder_step req explicit chains reqExt acc entry h).1 = acc ++ [br]
    ∧ users (bidder_step req explicit chains reqExt acc entry h).2 = users h ++ new
    ∧ (∀ q, Req_User (BR_BidRequest br) = Some q → q < length (users h ++ new))
    ∧ user_of (bidder_step req explicit chains reqExt acc entry h).2 br
      = outgoing_user (template_user (AR_BidRequest req) h) (selected_BuyerUID (BR_BidderName br) (BR_BidderCoreName br) explicit
         (AR_UserSyncs req)).
Proof.
  intros Hvalid. destruct entry as [bidder imps]. unfold bidder_step, bind, ret.
  set (reqCopy := Req_with_Ext (Req_with_Imp (AR_BidRequest req) imps) reqExt).
  destruct (prepareSource_users reqCopy bidder chains h) as [Hu1 Hh1].
  destruct (prepareSource reqCopy bidder chains h) as [reqCopy1 h1].
  cbn [fst snd] in Hu1, Hh1.
  assert (Req_User reqCopy1 = Req_User (AR_BidRequest req)) as Hu1' by done.
  set (core := resolveBidder bidder (AR_Aliases req)).
  rewrite prepareUser_eq by (rewrite Hu1', Hh1; exact Hvalid).
  unfold user_of, template_user. rewrite Hu1', Hh1.
  destruct (selected_BuyerUID bidder core explicit (AR_UserSyncs req)) as [id|] eqn:Hid.
  - cbn zeta.
    destruct (decide (User_BuyerUID
                        (default zero_User
                           (Req_User (AR_BidRequest req) ≫= (λ p, users h !! p)))
                      = EmptyString)) as [Hempty|Hset].
    + eexists _, [_]. split; [reflexivity|].
      cbn [fst snd users BR_BidRequest BR_BidderName BR_BidderCoreName].
      split_and!; [done| |].
      * intros q [= <-]. rewrite length_app. simpl. lia.
      * fold core. rewrite Hid. unfold outgoing_user. cbn zeta. rewrite decide_True by done.
        simpl. rewrite lookup_app_r, Nat.sub_diag by done. done.
    + eexists _, []. split; [reflexivity|].
      cbn [fst snd users BR_BidRequest BR_BidderName BR_BidderCoreName].
      rewrite app_nil_r. rewrite Hu1'. split_and!; [by rewrite Hh1| |].
      * intros q Hq. destruct (Hvalid q Hq) as [u Hu]. by eapply lookup_lt_Some.
      * fold core. rewrite Hid. unfold outgoing_user. cbn zeta. rewrite decide_False by done.
        rewrite Hh1.
        destruct (Req_User (AR_BidRequest req)) as [p|]; simpl in *; [|done].
        destruct (Hvalid p eq_refl) as [u Hu]. by rewrite Hu.
  - eexists _, []. split; [reflexivity|].
    cbn [fst snd users BR_BidRequest BR_BidderName BR_BidderCoreName].
    rewrite app_nil_r. rewrite Hu1'. split_and!; [by rewrite Hh1| |].
    + intros q Hq. destruct (Hvalid q Hq) as [u Hu]. by eapply lookup_lt_Some.
    + fold core. rewrite Hid, Hh1. done.
Qed.

Lemma user_of_app (h h' : Heap) (new : list User) (br : BidderRequest) :
  users h' = users h ++ new →
  (∀ q, Req_User (BR_BidRequest br) = Some q → q < length (users h)) →
  user_of h' br = user_of h br.
Proof.
  intros Heq Hlt. unfold user_of. destruct (Req_User (BR_BidRequest br)) as [q|]; [|done].
  simpl. rewrite Heq. by rewrite lookup_app_l by (by apply Hlt).
Qed.

Lemma foldM_users (l : list (string * list Imp)) (acc : list BidderRequest)
    (h : Heap) (tu : option User) :
  (∀ p, Req_User (AR_BidRequest req) = Some p → is_Some (users h !! p)) →
  template_user (AR_BidRequest req) h = tu →
  (∀ br, br ∈ acc →
     (∀ q, Req_User (BR_BidRequest br) = Some q → q < length (users h))
     ∧ user_of h br = outgoing_user tu (selected_BuyerUID (BR_BidderName br) (BR_BidderCoreName br) explicit
         (AR_UserSyncs req))) →
  let r := foldM (bidder_step req explicit chains reqExt) acc l h in
  (∃ new, users r.2 = users h ++ new)
  ∧ ∀ br, br ∈ r.1 → user_of r.2 br = outgoing_user tu (selected_BuyerUID (BR_BidderName br) (BR_BidderCoreName br) explicit
         (AR_UserSyncs req)).
Proof.
  revert acc h. induction l as [|entry l IH]; intros acc h Hvalid Htu Hacc; cbn zeta.
  - cbn [foldM]. unfold ret. cbn [fst snd]. split; [by exists []; rewrite app_nil_r|].
    intros br Hbr. by apply Hacc.
  - cbn [foldM]. unfold bind.
    destruct (bidder_step_user acc entry h Hvalid) as (br & new & Hstep & Hnew & Hlt & Hu).
    destruct (bidder_step req explicit chains reqExt acc entry h) as [acc' h1].
    cbn [fst snd] in Hstep, Hnew, Hu. subst acc'.
    assert (∀ p u, users h !! p = Some u → users h1 !! p = Some u) as Hkeep.
    { intros p u Hp. rewrite Hnew. by apply lookup_app_l_Some. }
    destruct (IH (acc ++ [br]) h1) as [[new' Hnew'] Hall].
    + intros p Hp. destruct (Hvalid p Hp) as [u Hu']. exists u. by apply Hkeep.
    + rewrite <- Htu. unfold template_user.
      destruct (Req_User (AR_BidRequest req)) as [p|]; [|done]. simpl.
      destruct (Hvalid p eq_refl) as [u Hu'].
      transitivity (Some u); [exact (Hkeep p u Hu')|by symmetry].
    + intros br' [Hbr'|Hbr']%elem_of_app.
      * destruct (Hacc br' Hbr') as [Hlt' Hu']. split.
        { intros q Hq. rewrite Hnew, length_app. specialize (Hlt' q Hq). lia. }
        by rewrite (user_of_app h h1 new br' Hnew Hlt').
      * apply list_elem_of_singleton in Hbr' as ->. split.
        { intros q Hq. rewrite Hnew. by apply Hlt. }
        by rewrite Hu, Htu.
    + split; [|exact Hall]. exists (new ++ new'). by rewrite Hnew', Hnew, app_assoc.
Qed.

End LoopStore.

Section LoopSources.
Context (req : AuctionRequest) (explicit : gmap string string)
  (chains : gmap string ExtRequestPrebidSChainSChain) (reqExt : RawMessage).

(** The source part of a round. *)
Lemma bidder_step_source (acc : list BidderRequest) (entry : string * list Imp)
    (h : Heap) :
  ∃ br,
    (bidder_step req explicit chains reqExt acc entry h).1 = acc ++ [br]
    ∧ BR_BidderName br = entry.1
    ∧ match selected_SChain entry.1 chains, Req_Source (AR_BidRequest req) with
      | None, src =>
          Req_Source (BR_BidRequest br) = src
          ∧ sources (bidder_step req explicit chains reqExt acc entry h).2 = sources h
      | Some c, Some p =>
          Req_Source (BR_BidRequest br) = Some p
          ∧ sources (bidder_step req explicit chains reqExt acc entry h).2
            = match sources h !! p with
              | Some s => <[p := Source_with_Ext s (source_ext c)]> (sources h)
              | None => sources h
              end
      | Some c, None =>
          Req_Source (BR_BidRequest br) = Some (length (sources h))
          ∧ sources (bidder_step req explicit chains reqExt acc entry h).2
            = sources h ++ [Source_with_Ext zero_Source (source_ext c)]
      end.
Proof.
  destruct entry as [bidder imps]. unfold bidder_step, bind, ret.
  set (reqCopy := Req_with_Ext (Req_with_Imp (AR_BidRequest req) imps) reqExt).
  pose proof (prepareSource_eq reqCopy bidder chains h) as Hsrc.
  destruct (prepareSource reqCopy bidder chains h) as [reqCopy1 h1].
  set (core := resolveBidder bidder (AR_Aliases req)).
  destruct (prepareUser_sources reqCopy1 bidder core explicit (AR_UserSyncs req) h1)
    as [Hs2 Hh2].
  destruct (prepareUser reqCopy1 bidder core explicit (AR_UserSyncs req) h1)
    as [[reqCopy2 hadSync] h2].
  cbn [fst snd] in Hs2, Hh2 |- *. eexists. split; [reflexivity|].
  cbn [BR_BidderName BR_BidRequest]. split; [done|]. rewrite Hs2, Hh2.
  change (Req_Source (AR_BidRequest req)) with (Req_Source reqCopy).
  destruct (selected_SChain bidder chains) as [c|].
  - destruct (Req_Source reqCopy) as [p|] eqn:Hp.
    + injection Hsrc as -> ->. split; [done|]. by destruct (sources h !! p).
    + by injection Hsrc as -> ->.
  - by injection Hsrc as -> ->.
Qed.

Lemma Source_with_Ext_twice (s : Source) (e e' : RawMessage) :
  Source_with_Ext (Source_with_Ext s e) e' = Source_with_Ext s e'.
Proof. done. Qed.

Lemma foldM_shared_source (l : list (string * list Imp)) (acc : list BidderRequest)
    (h : Heap) (p : ptr) (s : Source) :
  Req_Source (AR_BidRequest req) = Some p →
  sources h !! p = Some s →
  (∀ br, br ∈ acc → Req_Source (BR_BidRequest br) = Some p) →
  let r := foldM (bidder_step req explicit chains reqExt) acc l h in
  (∀ br, br ∈ r.1 → Req_Source (BR_BidRequest br) = Some p)
  ∧ sources r.2
    = match last_chain chains l with
      | Some c => <[p := Source_with_Ext s (source_ext c)]> (sources h)
      | None => sources h
      end.
Proof.
  intros Hp. revert acc h s. induction l as [|entry l IH]; intros acc h s Hs Hacc;
    cbn zeta.
  - done.
  - cbn [foldM]. unfold bind.
    destruct (bidder_step_source acc entry h) as (br & Hstep & _ & Hsrc).
    destruct (bidder_step req explicit chains reqExt acc entry h) as [acc' h1].
    cbn [fst snd] in Hstep, Hsrc. subst acc'. rewrite Hp in Hsrc.
    unfold last_chain. cbn [omap list_omap].
    fold (omap (λ entry : string * list Imp, selected_SChain entry.1 chains) l).
    destruct (selected_SChain entry.1 chains) as [c|].
    + destruct Hsrc as [Hbr Hh1]. rewrite Hs in Hh1.
      destruct (IH (acc ++ [br]) h1 (Source_with_Ext s (source_ext c))) as [Hall Hfin].
      { rewrite Hh1. apply list_lookup_insert_eq. by eapply lookup_lt_Some. }
      { intros br' [?|Hbr']%elem_of_app; [by auto|].
        by apply list_elem_of_singleton in Hbr' as ->. }
      split; [exact Hall|]. cbn zeta in Hfin. rewrite Hfin. unfold last_chain.
      destruct (omap (λ entry : string * list Imp, selected_SChain entry.1 chains) l)
        as [|c' cs] eqn:Hcs.
      * done.
      * rewrite (last_cons c (c' :: cs)).
        destruct (last (c' :: cs)) as [c''|] eqn:Hlast.
        -- by rewrite Hh1, Source_with_Ext_twice, list_insert_insert_eq.
        -- by apply last_None in Hlast.
    + destruct Hsrc as [Hbr Hh1].
      destruct (IH (acc ++ [br]) h1 s) as [Hall Hfin].
      { by rewrite Hh1. }
      { intros br' [?|Hbr']%elem_of_app; [by auto|].
        by apply list_elem_of_singleton in Hbr' as ->. }
      split; [exact Hall|]. cbn zeta in Hfin. by rewrite Hfin, Hh1.
Qed.

Lemma source_of_app (h h' : Heap) (new : list Source) (br : BidderRequest) :
  sources h' = sources h ++ new →
  (∀ q, Req_Source (BR_BidRequest br) = Some q → q < length (sources h)) →
  source_of h' br = source_of h br.
Proof.
  intros Heq Hlt. unfold source_of.
  destruct (Req_Source (BR_BidRequest br)) as [q|]; [|done].
  simpl. rewrite Heq. by rewrite lookup_app_l by (by apply Hlt).
Qed.

Lemma foldM_fresh_sources (l : list (string * list Imp)) (acc : list BidderRequest)
    (h : Heap) :
  Req_Source (AR_BidRequest req) = None →
  (∀ br, br ∈ acc →
     (∀ q, Req_Source (BR_BidRequest br) = Some q → q < length (sources h))
     ∧ source_of h br
       = (λ c, Source_with_Ext zero_Source (source_ext c))
           <$> selected_SChain (BR_BidderName br) chains) →
  let r := foldM (bidder_step req explicit chains reqExt) acc l h in
  (∃ new, sources r.2 = sources h ++ new)
  ∧ ∀ br, br ∈ r.1 →
      source_of r.2 br
      = (λ c, Source_with_Ext zero_Source (source_ext c))
          <$> selected_SChain (BR_BidderName br) chains.
Proof.
  intros Hnone. revert acc h. induction l as [|entry l IH]; intros acc h Hacc; cbn zeta.
  - cbn [foldM]. unfold ret. cbn [fst snd]. split; [by exists []; rewrite app_nil_r|].
    intros br Hbr. by apply Hacc.
  - cbn [foldM]. unfold bind.
    destruct (bidder_step_source acc entry h) as (br & Hstep & Hname & Hsrc).
    destruct (bidder_step req explicit chains reqExt acc entry h) as [acc' h1].
    cbn [fst snd] in Hstep, Hsrc. subst acc'. rewrite Hnone in Hsrc.
    assert (∃ new, sources h1 = sources h ++ new
                   ∧ (∀ q, Req_Source (BR_BidRequest br) = Some q →
                           q < length (sources h ++ new))
                   ∧ source_of h1 br
                     = (λ c, Source_with_Ext zero_Source (source_ext c))
                         <$> selected_SChain (BR_BidderName br) chains)
      as (new & Hnew & Hlt & Hbr).
    { rewrite Hname. unfold source_of.
      destruct (selected_SChain entry.1 chains) as [c|]; destruct Hsrc as [-> Hh1].
      - eexists [_]. split; [exact Hh1|]. split.
        + intros q [= <-]. rewrite length_app. simpl. lia.
        + simpl. rewrite Hh1. by rewrite lookup_app_r, Nat.sub_diag.
      - exists []. rewrite app_nil_r. by split_and!. }
    destruct (IH (acc ++ [br]) h1) as [[new' Hnew'] Hall].
    + intros br' [Hbr'|Hbr']%elem_of_app.
      * destruct (Hacc br' Hbr') as [Hlt' Hs']. split.
        { intros q Hq. rewrite Hnew, length_app. specialize (Hlt' q Hq). lia. }
        by rewrite (source_of_app h h1 new br' Hnew Hlt').
      * apply list_elem_of_singleton in Hbr' as ->. split; [|done].
        intros q Hq. rewrite Hnew. by apply Hlt.
    + split; [|exact Hall]. exists (new ++ new'). by rewrite Hnew', Hnew, app_assoc.
Qed.

End LoopSources.

Lemma extractBuyerUIDs_store (user : option ptr) (h : Heap) :
  length (users (extractBuyerUIDs user h).2) = length (users h)
  ∧ sources (extractBuyerUIDs user h).2 = sources h
  ∧ (is_Err (extractBuyerUIDs user h).1 → (extractBuyerUIDs user h).2 = h).
Proof.
  unfold extractBuyerUIDs, bind, get_user, set_user, ret.
  destruct user as [p|]; [|by split_and!; [..|intros [? ?]]].
  destruct (users h !! p) as [u|]; [|by split_and!; [..|intros [? ?]]].
  destruct (len0 (User_Ext u)); [by split_and!; [..|intros [? ?]]|].
  destruct (Unmarshal_ExtUser (User_Ext u)) as [userExt|err]; [|done].
  destruct (Prebid userExt) as [prebid|]; [|by split_and!; [..|intros [? ?]]].
  cbn [Consent DigiTrust].
  destruct (negb (bool_decide (Consent userExt = EmptyString))
            || bool_decide (is_Some (DigiTrust userExt))); cbn [fst snd users sources].
  - unfold Marshal_ExtUser. cbn [fst snd users sources].
    split_and!; [by rewrite length_insert|done|by intros [? ?]].
  - split_and!; [by rewrite length_insert|done|by intros [? ?]].
Qed.

Section FanOut.
Context `{RangeOrder}.

Lemma getAuctionBidderRequests_run (req : AuctionRequest) (h h0 : Heap)
    (impExts : list (gmap string RawMessage)) (explicit : gmap string string)
    (chains : gmap string ExtRequestPrebidSChainSChain) :
  parseImpExts (Req_Imp (AR_BidRequest req)) = Ok impExts →
  extractBuyerUIDs (Req_User (AR_BidRequest req)) h = (Ok explicit, h0) →
  BidderToPrebidSChains (AR_Ext req) = Ok chains →
  ∃ impsByBidder reqExt,
    splitImps (Req_Imp (AR_BidRequest req)) = (Some impsByBidder, [])
    ∧ (∀ b, impsByBidder !! b
            = match omap (copy_for b) (zip (Req_Imp (AR_BidRequest req)) impExts) with
              | [] => None
              | l => Some l
              end)
    ∧ getExtJson (AR_BidRequest req) (AR_Ext req) = Ok reqExt
    ∧ getAuctionBidderRequests req h
      = let r := foldM (bidder_step req explicit chains reqExt) []
                   (range impsByBidder) h0 in
        ((Some r.1, []), r.2).
Proof.
  intros Hparse Huids Hchains.
  destruct (splitImps_spec _ _ Hparse) as (out & Hsplit & _ & Hout).
  assert (∃ reqExt, getExtJson (AR_BidRequest req) (AR_Ext req) = Ok reqExt)
    as [reqExt HreqExt].
  { unfold getExtJson. destruct (AR_Ext req) as [ext|]; [|by eexists].
    destruct (len0 (Req_Ext (AR_BidRequest req))); by eexists. }
  exists out, reqExt. split_and!; [done|done|done|].
  unfold getAuctionBidderRequests. rewrite Hsplit. unfold bind at 1.
  rewrite Huids, Hchains, HreqExt. unfold bind, ret. cbn [default from_option id].
  by destruct (foldM (bidder_step req explicit chains reqExt) [] (range out) h0).
Qed.


End FanOut.

Section FanOutStore.
Context `{RangeOrder}.

(** X2. Under the same conditions, the user object the request of a bidder
    points to after the loop is the template user as [extractBuyerUIDs] left
    it when no buyer identifier is selected for the bidder or the template
    has an identifier of its own, and otherwise a copy of that template
    whose identifier is the one selected for this bidder: the explicit one
    under the given name, else the synced one of the core name. No user
    object that existed before the loop is modified, so no request carries
    the identifier selected for another bidder. *)
Theorem fan_out_users (req : AuctionRequest) (h h0 : Heap)
    (impExts : list (gmap string RawMessage)) (explicit : gmap string string)
    (chains : gmap string ExtRequestPrebidSChainSChain) :
  (∀ p, Req_User (AR_BidRequest req) = Some p → is_Some (users h !! p)) →
  parseImpExts (Req_Imp (AR_BidRequest req)) = Ok impExts →
  extractBuyerUIDs (Req_User (AR_BidRequest req)) h = (Ok explicit, h0) →
  BidderToPrebidSChains (AR_Ext req) = Ok chains →
  ∃ brs h',
    getAuctionBidderRequests req h = ((Some brs, []), h')
    ∧ (∀ p u, users h0 !! p = Some u → users h' !! p = Some u)
    ∧ ∀ br, br ∈ brs →
        user_of h' br
        = outgoing_user (template_user (AR_BidRequest req) h0)
            (selected_BuyerUID (BR_BidderName br) (BR_BidderCoreName br) explicit
               (AR_UserSyncs req)).
Proof.
  intros Hvalid Hparse Huids Hchains.
  destruct (getAuctionBidderRequests_run req h h0 impExts explicit chains
              Hparse Huids Hchains) as (out & reqExt & _ & _ & _ & Hrun).
  destruct (extractBuyerUIDs_store (Req_User (AR_BidRequest req)) h) as (Hlen & _ & _).
  rewrite Huids in Hlen. cbn [snd] in Hlen.
  destruct (foldM_users req explicit chains reqExt (range out) [] h0
              (template_user (AR_BidRequest req) h0)) as [[new Hnew] Hall].
  { intros p Hp. destruct (Hvalid p Hp) as [u Hu]. apply lookup_lt_is_Some.
    rewrite Hlen. by eapply lookup_lt_Some. }
  { done. }
  { by intros br ?%elem_of_nil. }
  eexists _, _. split; [exact Hrun|]. split; [|exact Hall].
  intros p u Hp. rewrite Hnew. by apply lookup_app_l_Some.
Qed.

(** X3. When the inbound request comes with a source object, the request of
    every bidder points to that one object: [prepareSource] allocates a
    source only when the request has none and overwrites the extension of
    the shared object in place. After the loop the object holds the chain
    selected for the last bidder visited that has one, whichever bidder
    reads it. *)
Theorem fan_out_shares_source (req : AuctionRequest) (h h0 : Heap)
    (impExts : list (gmap string RawMessage)) (explicit : gmap string string)
    (chains : gmap string ExtRequestPrebidSChainSChain) (p : ptr) (s : Source) :
  Req_Source (AR_BidRequest req) = Some p →
  sources h !! p = Some s →
  parseImpExts (Req_Imp (AR_BidRequest req)) = Ok impExts →
  extractBuyerUIDs (Req_User (AR_BidRequest req)) h = (Ok explicit, h0) →
  BidderToPrebidSChains (AR_Ext req) = Ok chains →
  ∃ brs h' impsByBidder,
    getAuctionBidderRequests req h = ((Some brs, []), h')
    ∧ splitImps (Req_Imp (AR_BidRequest req)) = (Some impsByBidder, [])
    ∧ (∀ br, br ∈ brs → Req_Source (BR_BidRequest br) = Some p)
    ∧ sources h'
      = match last_chain chains (range impsByBidder) with
        | Some c => <[p := Source_with_Ext s (source_ext c)]> (sources h)
        | None => sources h
        end.
Proof.
  intros Hp Hs Hparse Huids Hchains.
  destruct (getAuctionBidderRequests_run req h h0 impExts explicit chains
              Hparse Huids Hchains) as (out & reqExt & Hsplit & _ & _ & Hrun).
  destruct (extractBuyerUIDs_store (Req_User (AR_BidRequest req)) h) as (_ & Hsrc & _).
  rewrite Huids in Hsrc. cbn [snd] in Hsrc.
  destruct (foldM_shared_source req explicit chains reqExt (range out) [] h0 p s)
    as [Hall Hfin]; [done|by rewrite Hsrc|by intros br ?%elem_of_nil|].
  eexists _, _, out. split; [exact Hrun|]. split; [done|]. split; [exact Hall|].
  by rewrite Hfin, Hsrc.
Qed.

(** X4. When the inbound request has no source object, the request of each
    bidder for which a chain is selected points to a source object of its
    own, zero but for the extension that encodes this chain; the request of
    a bidder without chain has no source; the source objects that existed
    before are kept as they were. *)
Theorem fan_out_fresh_sources (req : AuctionRequest) (h h0 : Heap)
    (impExts : list (gmap string RawMessage)) (explicit : gmap string string)
    (chains : gmap string ExtRequestPrebidSChainSChain) :
  Req_Source (AR_BidRequest req) = None →
  parseImpExts (Req_Imp (AR_BidRequest req)) = Ok impExts →
  extractBuyerUIDs (Req_User (AR_BidRequest req)) h = (Ok explicit, h0) →
  BidderToPrebidSChains (AR_Ext req) = Ok chains →
  ∃ brs h',
    getAuctionBidderRequests req h = ((Some brs, []), h')
    ∧ (∃ new, sources h' = sources h ++ new)
    ∧ ∀ br, br ∈ brs →
        source_of h' br
        = (λ c, Source_with_Ext zero_Source (source_ext c))
            <$> selected_SChain (BR_BidderName br) chains.
Proof.
  intros Hnone Hparse Huids Hchains.
  destruct (getAuctionBidderRequests_run req h h0 impExts explicit chains
              Hparse Huids Hchains) as (out & reqExt & _ & _ & _ & Hrun).
  destruct (extractBuyerUIDs_store (Req_User (AR_BidRequest req)) h) as (_ & Hsrc & _).
  rewrite Huids in Hsrc. cbn [snd] in Hsrc.
  destruct (foldM_fresh_sources req explicit chains reqExt (range out) [] h0 Hnone)
    as [[new Hnew] Hall]; [by intros br ?%elem_of_nil|].
  eexists _, _. split; [exact Hrun|]. split; [|exact Hall].
  exists new. by rewrite Hnew, Hsrc.
Qed.

(** X5. What [getAuctionBidderRequests] leaves in the store when it fails.
    When an impression extension or the user extension does not decode, it
    returns that error alone and the store is untouched. When the
    supply-chain step fails, it returns that error alone and the store is
    the one [extractBuyerUIDs] produced: the user extension has already been
    rewritten although no bidder request is returned. *)
Theorem fan_out_failure_store (req : AuctionRequest) (h : Heap) :
  (∀ err, parseImpExts (Req_Imp (AR_BidRequest req)) = Err err →
          getAuctionBidderRequests req h = ((None, [err]), h))
  ∧ (∀ impExts err,
       parseImpExts (Req_Imp (AR_BidRequest req)) = Ok impExts →
       (extractBuyerUIDs (Req_User (AR_BidRequest req)) h).1 = Err err →
       getAuctionBidderRequests req h = ((None, [err]), h))
  ∧ (∀ impExts explicit h0 err,
       parseImpExts (Req_Imp (AR_BidRequest req)) = Ok impExts →
       extractBuyerUIDs (Req_User (AR_BidRequest req)) h = (Ok explicit, h0) →
       BidderToPrebidSChains (AR_Ext req) = Err err →
       getAuctionBidderRequests req h = ((None, [err]), h0)).
Proof.
  split_and!.
  - intros err Hparse. unfold getAuctionBidderRequests, splitImps. by rewrite Hparse.
  - intros impExts err Hparse Herr.
    destruct (extractBuyerUIDs_store (Req_User (AR_BidRequest req)) h) as (_ & _ & Hsame).
    unfold getAuctionBidderRequests, splitImps. rewrite Hparse. unfold bind, ret.
    destruct (extractBuyerUIDs (Req_User (AR_BidRequest req)) h) as [r h0].
    cbn [fst snd] in *. subst r. rewrite Hsame; [done|by eexists].
  - intros impExts explicit h0 err Hparse Huids Hchains.
    unfold getAuctionBidderRequests, splitImps. rewrite Hparse. unfold bind, ret.
    by rewrite Huids, Hchains.
Qed.

End FanOutStore.

(** The theorems at the request of the examples. *)
Lemma example_parse : parseImpExts [partition_imp] = Ok [partition_impExt].
Proof. vm_compute. reflexivity. Qed.
Lemma example_extract :
  extractBuyerUIDs (Some 0) shared_heap = (Ok explicit_uids, stripped_heap).
Proof. vm_compute. reflexivity. Qed.
Lemma example_chains :
  BidderToPrebidSChains (Some (request_ext wildcard_and_bidderA)) = Ok chains_by_bidder.
Proof. vm_compute. reflexivity. Qed.
Lemma example_extract_sourced :
  extractBuyerUIDs (Some 0) sourced_heap
  = (Ok explicit_uids, {| users := users stripped_heap; sources := [inbound_source] |}).
Proof. vm_compute. reflexivity. Qed.


Lemma fan_out_users_witness :
  ∃ brs h',
    @getAuctionBidderRequests canonical_order
      (auction_request [partition_imp] wildcard_and_bidderA) shared_heap
    = ((Some brs, []), h')
    ∧ ∀ br, br ∈ brs →
        user_of h' br
        = outgoing_user (users stripped_heap !! 0)
            (selected_BuyerUID (BR_BidderName br) (BR_BidderCoreName br) explicit_uids
               sync_store).
Proof.
  destruct (@fan_out_users canonical_order
              (auction_request [partition_imp] wildcard_and_bidderA)
              shared_heap stripped_heap [partition_impExt] explicit_uids
              chains_by_bidder)
    as (brs & h' & Hrun & _ & Husers).
  - intros p [= <-]. by eexists.
  - exact example_parse.
  - exact example_extract.
  - exact example_chains.
  - exists brs, h'. split; [exact Hrun|exact Husers].
Defined.

Lemma fan_out_shares_source_witness :
  ∃ brs h',
    @getAuctionBidderRequests canonical_order
      (sourced_request [partition_imp] wildcard_and_bidderA) sourced_heap
    = ((Some brs, []), h')
    ∧ (∀ br, br ∈ brs → Req_Source (BR_BidRequest br) = Some 0)
    ∧ sources h' = [Source_with_Ext inbound_source (source_ext chain_X)].
Proof.
  destruct (@fan_out_shares_source canonical_order
              (sourced_request [partition_imp] wildcard_and_bidderA)
              sourced_heap {| users := users stripped_heap; sources := [inbound_source] |}
              [partition_impExt] explicit_uids chains_by_bidder 0 inbound_source
              eq_refl eq_refl example_parse example_extract_sourced example_chains)
    as (brs & h' & out & Hrun & Hsplit & Hsame & Hfin).
  exists brs, h'. split_and!; [exact Hrun|exact Hsame|].
  rewrite Hfin. vm_compute in Hsplit. injection Hsplit as <-. vm_compute. reflexivity.
Defined.

Lemma fan_out_fresh_sources_witness :
  ∃ brs h',
    @getAuctionBidderRequests canonical_order
      (auction_request [partition_imp] wildcard_and_bidderA) shared_heap
    = ((Some brs, []), h')
    ∧ ∀ br, br ∈ brs →
        source_of h' br
        = (λ c, Source_with_Ext zero_Source (source_ext c))
            <$> selected_SChain (BR_BidderName br) chains_by_bidder.
Proof.
  destruct (@fan_out_fresh_sources canonical_order
              (auction_request [partition_imp] wildcard_and_bidderA)
              shared_heap stripped_heap [partition_impExt] explicit_uids
              chains_by_bidder eq_refl example_parse example_extract example_chains)
    as (brs & h' & Hrun & _ & Hsrc).
  exists brs, h'. split; [exact Hrun|exact Hsrc].
Defined.

(** ** The partition of the impressions *)

Lemma sanitize_fold_any (imp : Imp) (p c : RawMessage) (l : list (string * RawMessage)) :
  ∀ out errs,
    NoDup l.*1 →
    (foldl (sanitize_step imp p c) (out, errs) l).2 = errs ++ omap (encode_failure p c) l
    ∧ ∀ b, (foldl (sanitize_step imp p c) (out, errs) l).1 !! b =
           match (if decide (reserved b) then None
                  else (list_to_map l : gmap string RawMessage) !! b) with
           | Some ext =>
               match Marshal_map (newExt ext p c) with
               | Ok raw => Some (default [] (out !! b) ++ [Imp_with_Ext imp raw])
               | Err _ => out !! b
               end
           | None => out !! b
           end.
Proof.
  induction l as [|[k ext] l IH]; intros out errs Hnd.
  - cbn [foldl fst snd omap list_omap]. rewrite app_nil_r. split; [done|].
    intros b. rewrite list_to_map_nil, lookup_empty. by case_decide.
  - rewrite fmap_cons in Hnd. apply NoDup_cons in Hnd as [Hk Hnd].
    cbn [foldl]. unfold sanitize_step at 2 4.
    cbn [omap list_omap]. fold (omap (encode_failure p c) l).
    unfold encode_failure at 1. cbn [fst snd]. unfold reserved at 1.
    case_bool_decide as Hres.
    + rewrite decide_True by done. destruct (IH out errs Hnd) as [-> Hout'].
      split; [done|]. intros b. rewrite Hout'. case_decide as Hb; [done|].
      rewrite list_to_map_cons, lookup_insert_ne; [done|].
      intros ->. by apply Hb.
    + rewrite decide_False by done.
      destruct (Marshal_map (newExt ext p c)) as [raw|err] eqn:Hraw.
      * destruct (IH (<[k := default [] (out !! k) ++ [Imp_with_Ext imp raw]]> out)
                    errs Hnd) as [-> Hout'].
        split; [done|]. intros b. rewrite Hout'.
        rewrite list_to_map_cons. destruct (decide (b = k)) as [->|Hbk].
        -- destruct (decide (reserved k)) as [?|_]; [done|].
           rewrite !lookup_insert_eq, Hraw.
           by rewrite (not_elem_of_list_to_map_1 _ _ Hk).
        -- by rewrite !(lookup_insert_ne _ k b) by congruence.
      * destruct (IH out (errs ++ [err]) Hnd) as [-> Hout'].
        split; [by rewrite <- app_assoc|]. intros b. rewrite Hout'.
        rewrite list_to_map_cons. destruct (decide (b = k)) as [->|Hbk].
        -- destruct (decide (reserved k)) as [?|_]; [done|].
           rewrite lookup_insert_eq, Hraw.
           by rewrite (not_elem_of_list_to_map_1 _ _ Hk).
        -- by rewrite !(lookup_insert_ne _ k b) by congruence.
Qed.

Section PartitionExtras.
Context `{RangeOrder}.

(** X6. [sanitizedImpCopy], whatever parameters it is handed: every bidder
    other than [prebid] and [context] whose extension encodes gets one copy
    of the impression appended to its list, which keeps the copies it had;
    a bidder whose extension does not encode gets no copy; no other entry of
    the map changes. The errors returned are the error of the re-encoding of
    the [prebid] block, if any, followed by one error for each bidder whose
    extension does not encode, in the order the loop visits the bidders. *)
Theorem sanitizedImpCopy_accounting (imp : Imp) (bidderExts : gmap string RawMessage)
    (rawPrebidExt firstPartyDataContext : RawMessage) (out : gmap string (list Imp)) :
  let stripped := (strip_bidder rawPrebidExt).1 in
  let r := sanitizedImpCopy imp bidderExts rawPrebidExt firstPartyDataContext out in
  r.2 = (strip_bidder rawPrebidExt).2
        ++ omap (encode_failure stripped firstPartyDataContext) (range bidderExts)
  ∧ ∀ bidder,
      r.1 !! bidder
      = match (if decide (reserved bidder) then None else bidderExts !! bidder) with
        | Some ext =>
            match Marshal_map (newExt ext stripped firstPartyDataContext) with
            | Ok rawExt =>
                Some (default [] (out !! bidder) ++ [Imp_with_Ext imp rawExt])
            | Err _ => out !! bidder
            end
        | None => out !! bidder
        end.
Proof.
  cbn zeta. unfold sanitizedImpCopy.
  destruct (strip_bidder rawPrebidExt) as [p errs]. cbn [fst snd].
  destruct (sanitize_fold_any imp p firstPartyDataContext (range bidderExts) out errs)
    as [Herrs Hout]; [apply range_NoDup|].
  split; [done|]. intros bidder. by rewrite Hout, list_to_map_range.
Qed.

(** X7. [parseImpExts] succeeds exactly when the extension of every
    impression decodes, and then returns the decoded maps, one for each
    impression, in order. *)
Theorem parseImpExts_succeeds_iff (imps : list Imp)
    (impExts : list (gmap string RawMessage)) :
  parseImpExts imps = Ok impExts
  ↔ Forall2 (λ imp impExt, Unmarshal_map (Imp_Ext imp) = Ok impExt) imps impExts.
Proof.
  unfold parseImpExts. split; [apply parseImpExts_from_Ok|].
  generalize 0. intros i Hall. revert i.
  induction Hall as [|imp impExt imps impExts Himp _ IH]; intros i; simpl; [done|].
  by rewrite Himp, IH.
Qed.

End PartitionExtras.

(** X15. The result of [splitImps] does not depend on the order in which
    the [range] loops visit the bidders of an impression: for any two
    orders the map and the error are the same. *)
Theorem splitImps_order_independent (order order' : RangeOrder) (imps : list Imp) :
  @splitImps order imps = @splitImps order' imps.
Proof.
  destruct (parseImpExts imps) as [impExts|err] eqn:Hparse.
  - destruct (@splitImps_spec order imps impExts Hparse) as (out & -> & _ & Hout).
    destruct (@splitImps_spec order' imps impExts Hparse) as (out' & -> & _ & Hout').
    do 2 f_equal. apply map_eq. intros b. by rewrite Hout, Hout'.
  - unfold splitImps. by rewrite Hparse.
Qed.

(** ** Buyer identifiers and the request extension *)

(** X8. [extractBuyerUIDs] removes what it returns: run again on the store
    a successful run left, it returns no buyer identifier and changes
    nothing. *)
Theorem extractBuyerUIDs_second_run (user : option ptr) (h h1 : Heap)
    (buyerUIDs : gmap string string) :
  extractBuyerUIDs user h = (Ok buyerUIDs, h1) →
  extractBuyerUIDs user h1 = (Ok ∅, h1).
Proof.
  unfold extractBuyerUIDs at 1. unfold bind, get_user, set_user, ret.
  destruct user as [p|]; [|by intros [= <- <-]].
  destruct (users h !! p) as [u|] eqn:Hu; [|intros [= <- <-]].
  2: { unfold extractBuyerUIDs, bind, get_user, ret. by rewrite Hu. }
  destruct (len0 (User_Ext u)) eqn:Hlen; [intros [= <- <-]|].
  { unfold extractBuyerUIDs, bind, get_user, ret. by rewrite Hu, Hlen. }
  destruct (Unmarshal_ExtUser (User_Ext u)) as [userExt|err] eqn:Hext; [|done].
  destruct (Prebid userExt) as [prebid|] eqn:Hprebid; [|intros [= <- <-]].
  2: { unfold extractBuyerUIDs, bind, get_user, ret.
       by rewrite Hu, Hlen, Hext, Hprebid. }
  cbn [Consent DigiTrust]. fold (without_prebid userExt).
  assert (p < length (users h)) as Hp by (by eapply lookup_lt_Some).
  destruct (negb (bool_decide (Consent userExt = EmptyString))
            || bool_decide (is_Some (DigiTrust userExt))) eqn:Hkeep.
  - destruct (Marshal_ExtUser (without_prebid userExt)) as [data|] eqn:Hdata; [|done].
    intros [= <- <-].
    destruct (Unmarshal_Marshal_ExtUser userExt data Hdata) as [Hround _].
    unfold extractBuyerUIDs, bind, get_user, ret. cbn [users].
    rewrite list_lookup_insert_eq by done. cbn [User_with_Ext User_Ext].
    assert (len0 data = false) as ->.
    { unfold Unmarshal_ExtUser, Unmarshal_struct in Hround.
      destruct (scan data) as [v|] eqn:Hscan; [|done]. by eapply scan_len0. }
    by rewrite Hround.
  - intros [= <- <-]. unfold extractBuyerUIDs, bind, get_user, ret. cbn [users].
    by rewrite list_lookup_insert_eq by done.
Qed.

(** The theorem at the user of the examples. *)
Lemma extractBuyerUIDs_second_run_witness :
  extractBuyerUIDs (Some 0) shared_heap = (Ok explicit_uids, stripped_heap)
  ∧ extractBuyerUIDs (Some 0) stripped_heap = (Ok ∅, stripped_heap).
Proof.
  split; [exact example_extract|].
  exact (extractBuyerUIDs_second_run (Some 0) shared_heap stripped_heap explicit_uids
           example_extract).
Defined.

Lemma lookup_omitempty_ne (k k' : string) (o : option value) (m : gmap string value) :
  k ≠ k' → omitempty k o m !! k' = m !! k'.
Proof. intros Hne. destruct o; [by apply lookup_insert_ne|done]. Qed.

(** X9. [getExtJson] returns the empty message when the request has no
    extension or none was decoded. Otherwise it returns the encoding of the
    decoded extension: an object whose [prebid] member has no [schains]
    member and, under every other name, what the encoding of the whole
    extension has there. *)
Theorem getExtJson_drops_schains (req : BidRequest) (ext : ExtRequest) :
  (len0 (Req_Ext req) = true → getExtJson req (Some ext) = Ok (raw_bad EmptyString))
  ∧ getExtJson req None = Ok (raw_bad EmptyString)
  ∧ (len0 (Req_Ext req) = false →
     ∃ prebid original,
       getExtJson req (Some ext) = Ok (raw_doc (JObj {["prebid" := JObj prebid]}))
       ∧ Marshal_ExtRequest ext = Ok (raw_doc (JObj {["prebid" := JObj original]}))
       ∧ prebid !! "schains" = None
       ∧ ∀ k, k ≠ "schains" → prebid !! k = original !! k).
Proof.
  unfold getExtJson. split_and!; [by intros ->|done|]. intros ->.
  unfold Marshal_ExtRequest, encode_ExtRequestPrebid.
  cbn [ReqPrebid Aliases Cache SChains Debug].
  eexists _, _. split_and!; [reflexivity|reflexivity| |].
  - rewrite !lookup_omitempty_ne by done. cbn [omitempty].
    rewrite lookup_omitempty_ne by done. apply lookup_empty.
  - intros k Hk.
    destruct (decide (k = "aliases")) as [->|Ha].
    { by destruct (bool_decide (Aliases (ReqPrebid ext) = ∅));
        cbn [omitempty]; rewrite ?lookup_insert_eq, ?lookup_omitempty_ne by done. }
    rewrite !(lookup_omitempty_ne "aliases") by done.
    destruct (decide (k = "cache")) as [->|Hc].
    { by destruct (Cache (ReqPrebid ext));
        cbn [omitempty fmap option_fmap option_map];
        rewrite ?lookup_insert_eq, ?lookup_omitempty_ne by done. }
    rewrite !(lookup_omitempty_ne "cache") by done.
    by rewrite !(lookup_omitempty_ne "schains") by done.
Qed.

(** X16. [getExtCacheInstructions] sets [cacheBids] exactly when the request
    extension has a [prebid.cache.bids] block and [cacheVAST] exactly when
    it has a [prebid.cache.vastxml] block, whatever their [returnCreative];
    with no extension or no [prebid.cache] block it returns the defaults:
    nothing cached, creatives returned. *)
Theorem getExtCacheInstructions_flags (requestExt : option ExtRequest) :
  let cache := requestExt ≫= (λ e, Cache (ReqPrebid e)) in
  cacheBids (getExtCacheInstructions requestExt) = bool_decide (is_Some (cache ≫= Bids))
  ∧ cacheVAST (getExtCacheInstructions requestExt)
    = bool_decide (is_Some (cache ≫= VastXML))
  ∧ (cache = None →
     getExtCacheInstructions requestExt
     = {| cacheBids := false; cacheVAST := false; returnCreative := true |}).
Proof.
  cbn zeta. unfold getExtCacheInstructions.
  destruct (requestExt ≫= (λ e, Cache (ReqPrebid e))) as [[bids vast]|];
    [|by split_and!].
  cbn [Bids VastXML mbind option_bind].
  split_and!; [| |done];
    destruct bids as [[[|]]|], vast as [[[|]]|]; reflexivity.
Qed.

(** ** Supply chains *)

Section Chains.
Implicit Types (m : gmap string ExtRequestPrebidSChainSChain).

Lemma schain_pairs_app (l1 l2 : list (string * ExtRequestPrebidSChainSChain)) m :
  schain_pairs (l1 ++ l2) m
  = match schain_pairs l1 m with
    | Ok m1 => schain_pairs l2 m1
    | Err e => Err e
    end.
Proof.
  revert m. induction l1 as [|[b c] l1 IH]; intros m; simpl; [done|].
  destruct (m !! b); [done|]. apply IH.
Qed.

Lemma schain_bidders_pairs (sc : ExtRequestPrebidSChainSChain) (bs : list string) m :
  schain_bidders sc bs m = schain_pairs ((λ b, (b, sc)) <$> bs) m.
Proof.
  revert m. induction bs as [|b bs IH]; intros m; simpl; [done|].
  destruct (m !! b); [done|]. apply IH.
Qed.

Lemma schain_wrappers_pairs (ws : list ExtRequestPrebidSChain) m :
  schain_wrappers ws m = schain_pairs (declared_pairs ws) m.
Proof.
  unfold declared_pairs. revert m.
  induction ws as [|w ws IH]; intros m; cbn [schain_wrappers mbind list_bind]; [done|].
  rewrite schain_pairs_app, schain_bidders_pairs.
  destruct (schain_pairs ((λ b, (b, SChain w)) <$> Bidders w) m); [apply IH|done].
Qed.

Lemma declared_pairs_fst (ws : list ExtRequestPrebidSChain) :
  (declared_pairs ws).*1 = declared_bidders ws.
Proof.
  unfold declared_pairs, declared_bidders.
  induction ws as [|w ws IH]; [done|].
  cbn [mbind list_bind]. rewrite fmap_app. f_equal; [|exact IH].
  rewrite <- list_fmap_compose. apply list_fmap_id.
Qed.

Lemma schain_pairs_first_repeat (pre rest : list (string * ExtRequestPrebidSChainSChain))
    (b : string) (c : ExtRequestPrebidSChainSChain) m :
  NoDup pre.*1 → (∀ x, x ∈ pre.*1 → m !! x = None) →
  b ∈ pre.*1 ∨ is_Some (m !! b) →
  schain_pairs (pre ++ (b, c) :: rest) m = Err (multiple_schains b).
Proof.
  revert m. induction pre as [|[x cx] pre IH]; intros m Hnd Hfresh Hb.
  - destruct Hb as [[]%elem_of_nil|[c' Hc']]. simpl. by rewrite Hc'.
  - rewrite fmap_cons in Hnd, Hfresh, Hb. cbn [fst] in *.
    apply NoDup_cons in Hnd as [Hx Hnd]. simpl.
    rewrite (Hfresh x) by apply list_elem_of_here. apply IH; [done| |].
    + intros y Hy. rewrite lookup_insert_ne; [apply Hfresh; by right|].
      intros ->. done.
    + destruct Hb as [[->|Hb]%elem_of_cons|Hb].
      * right. rewrite lookup_insert_eq. by eexists.
      * by left.
      * right. rewrite lookup_insert_is_Some. destruct (decide (x = b)); auto.
Qed.

(** X11. The error of [BidderToPrebidSChains] names the first bidder, in
    declaration order, that was declared before: when the declared names
    are [pre ++ b :: rest] with no repetition in [pre] and [b] among
    [pre], the error is the one for [b]. *)
Theorem BidderToPrebidSChains_first_repeat (ext : ExtRequest)
    (pre rest : list string) (b : string) :
  declared_bidders (SChains (ReqPrebid ext)) = pre ++ b :: rest →
  NoDup pre → b ∈ pre →
  BidderToPrebidSChains (Some ext) = Err (multiple_schains b).
Proof.
  intros Hsplit Hnd Hb. unfold BidderToPrebidSChains.
  rewrite schain_wrappers_pairs. rewrite <- declared_pairs_fst in Hsplit.
  apply fmap_app_inv in Hsplit as (pre' & rest' & -> & Hrest & ->).
  symmetry in Hrest. apply fmap_cons_inv in Hrest as ([b' c] & rest'' & Hb' & _ & ->).
  cbn [fst] in Hb'. subst b'.
  apply schain_pairs_first_repeat; [done| |by left].
  intros x _. apply lookup_empty.
Qed.

(** X10. When no bidder is declared twice, [BidderToPrebidSChains] returns
    a map that holds exactly the declared bidders and gives each the chain
    of the association that declares it. *)
Theorem BidderToPrebidSChains_builds_map (ext : ExtRequest) :
  NoDup (declared_bidders (SChains (ReqPrebid ext))) →
  ∃ m,
    BidderToPrebidSChains (Some ext) = Ok m
    ∧ (∀ b, is_Some (m !! b) ↔ b ∈ declared_bidders (SChains (ReqPrebid ext)))
    ∧ ∀ b c, m !! b = Some c
             ↔ ∃ w, w ∈ SChains (ReqPrebid ext) ∧ b ∈ Bidders w ∧ SChain w = c.
Proof.
  intros Hnd. destruct (BidderToPrebidSChains_distinct ext Hnd) as [m Hm].
  exists m. split; [done|].
  destruct (BidderToPrebidSChains_NoDup ext m Hm) as [_ Hlookup].
  split; [|done]. intros b. unfold declared_bidders. rewrite list_elem_of_bind. split.
  - intros [c Hc]. apply Hlookup in Hc as (w & Hw & Hb & _). by exists w.
  - intros (w & Hb & Hw). exists (SChain w). apply Hlookup. by exists w.
Qed.

End Chains.

(** The two theorems at the chains of the examples. *)
Lemma BidderToPrebidSChains_builds_map_witness :
  NoDup (declared_bidders (SChains (ReqPrebid (request_ext wildcard_and_bidderA))))
  ∧ ∃ m,
      BidderToPrebidSChains (Some (request_ext wildcard_and_bidderA)) = Ok m
      ∧ m !! "bidderA" = Some chain_Y ∧ m !! "*" = Some chain_X
      ∧ m !! "bidderB" = None.
Proof.
  assert (NoDup (declared_bidders
                   (SChains (ReqPrebid (request_ext wildcard_and_bidderA))))) as Hnd.
  { change (NoDup ["*"; "bidderA"]). apply NoDup_cons. split; [|apply NoDup_singleton].
    intros Hin%list_elem_of_singleton. discriminate Hin. }
  split; [exact Hnd|].
  destruct (BidderToPrebidSChains_builds_map (request_ext wildcard_and_bidderA) Hnd)
    as (m & Hm & Hdom & Hlookup).
  exists m. split_and!; [exact Hm|..].
  - apply Hlookup. eexists. split_and!; [right; left|left|reflexivity].
  - apply Hlookup. eexists. split_and!; [left|left|reflexivity].
  - apply eq_None_not_Some. rewrite Hdom. change ("bidderB" ∉ ["*"; "bidderA"]).
    intros [Heq|Hin]%elem_of_cons; [discriminate Heq|].
    apply list_elem_of_singleton in Hin. discriminate Hin.
Defined.

Lemma BidderToPrebidSChains_first_repeat_witness :
  BidderToPrebidSChains (Some (request_ext bidderA_twice))
  = Err (multiple_schains "bidderA").
Proof.
  apply (BidderToPrebidSChains_first_repeat (request_ext bidderA_twice)
           ["bidderA"] [] "bidderA").
  - reflexivity.
  - apply NoDup_singleton.
  - apply list_elem_of_here.
Defined.

(** ** randomizeList *)

Lemma randomize_fold (perm : list nat) (n : nat) (idxs : list nat) :
  n ≤ length perm → Forall (λ j, j < n) perm → Forall (λ i, i < n) idxs →
  ∀ lst, length lst = n →
    ∃ lst', foldl (randomize_step perm) (Some lst) idxs = Some lst'
            ∧ lst' ≡ₚ lst.
Proof.
  intros Hlen Hperm. induction idxs as [|i idxs IH]; intros Hidxs lst Hlst.
  - by exists lst.
  - apply Forall_cons in Hidxs as [Hi Hidxs]. cbn [foldl randomize_step].
    destruct (lookup_lt_is_Some_2 perm i) as [j Hj]; [lia|]. rewrite Hj.
    assert (j < n) as Hjn.
    { rewrite Forall_forall in Hperm. apply Hperm. by eapply list_elem_of_lookup_2. }
    destruct (lookup_lt_is_Some_2 lst i) as [x Hx]; [lia|].
    destruct (lookup_lt_is_Some_2 lst j) as [y Hy]; [lia|].
    unfold swap. rewrite Hx, Hy.
    destruct (IH Hidxs (<[j := x]> (<[i := y]> lst))) as (lst' & -> & Hperm').
    { by rewrite !length_insert. }
    exists lst'. split; [done|]. rewrite Hperm'. by apply Permutation_insert_swap.
Qed.

(** X12. For every permutation of the positions that [rand.Perm] may
    return, [randomizeList] runs without an index out of range and leaves a
    rearrangement of the list: every bidder is kept, as often as it was
    there. *)
Theorem randomizeList_permutes (perm : list nat) (lst : list BidderName) :
  perm ≡ₚ seq 0 (length lst) →
  ∃ lst', randomizeList perm lst = Some lst' ∧ lst' ≡ₚ lst.
Proof.
  intros Hperm. unfold randomizeList.
  apply (randomize_fold perm (length lst)); [| | |done].
  - by rewrite Hperm, length_seq.
  - rewrite Hperm. apply Forall_forall. intros j Hj%elem_of_seq. lia.
  - apply Forall_forall. intros j Hj%elem_of_seq. lia.
Qed.

Lemma randomizeList_permutes_witness :
  [2; 0; 1] ≡ₚ seq 0 (length ["bidderA"; "bidderB"; "bidderC"])
  ∧ ∃ lst', randomizeList [2; 0; 1] ["bidderA"; "bidderB"; "bidderC"] = Some lst'
            ∧ lst' ≡ₚ ["bidderA"; "bidderB"; "bidderC"].
Proof.
  assert ([2; 0; 1] ≡ₚ seq 0 (length ["bidderA"; "bidderB"; "bidderC"])) as Hperm.
  { exact (Permutation_cons_append [0; 1] 2). }
  split; [exact Hperm|].
  exact (randomizeList_permutes [2; 0; 1] ["bidderA"; "bidderB"; "bidderC"] Hperm).
Defined.

(** ** The generic adapter *)

Section RequestFacts.
Context {Template : Type}.
Variable Unmarshal_ExtImpBidder : RawMessage → result ExtImpBidder.
Variable Unmarshal_ExtImpGeneric : RawMessage → result ExtImpGeneric.
Variable ResolveMacros : Template → EndpointTemplateParams → result string.
Variable Marshal_BidRequest : BidRequest → result RawMessage.

Local Abbreviation getBidderParams' := (getBidderParams Unmarshal_ExtImpBidder Unmarshal_ExtImpGeneric).
Local Abbreviation loop := (MakeRequests_loop Unmarshal_ExtImpBidder Unmarshal_ExtImpGeneric
                    ResolveMacros Marshal_BidRequest).
Local Abbreviation request_for' := (request_for Unmarshal_ExtImpBidder Unmarshal_ExtImpGeneric
                    ResolveMacros Marshal_BidRequest).

Lemma getBidderParams_host (imp : Imp) (p : ExtImpGeneric) :
  getBidderParams' imp = Ok p → Host p ≠ EmptyString.
Proof.
  unfold getBidderParams.
  destruct (Unmarshal_ExtImpBidder (Imp_Ext imp)) as [bidderExt|]; [|done].
  destruct (Unmarshal_ExtImpGeneric (ExtImpBidder_Bidder bidderExt)) as [g|]; [|done].
  case_bool_decide as Hlen; [done|]. intros [= <-] Hempty. rewrite Hempty in Hlen.
  simpl in Hlen. lia.
Qed.

Lemma MakeRequests_loop_spec (a : Adapter) (request : BidRequest) (imps : list Imp) :
  ∀ acc,
    match loop a request imps acc with
    | (Some rs, errs) =>
        errs = [] ∧ ∃ new, rs = acc ++ new ∧ Forall2 (request_for' a request) imps new
    | (None, errs) => ∃ msg, errs = [ErrorString msg]
    end.
Proof.
  induction imps as [|imp imps IH]; intros acc; cbn [MakeRequests_loop].
  - split; [done|]. exists []. by rewrite app_nil_r.
  - destruct (getBidderParams' imp) as [p|err] eqn:Hp; [|by eexists].
    destruct (ResolveMacros (EndpointTemplate a) {| Params_Host := Host p |})
      as [url|err] eqn:Hurl; [|by eexists].
    destruct (Marshal_BidRequest (Req_with_Imp request [imp])) as [body|err] eqn:Hbody;
      [|by eexists].
    specialize (IH (acc ++ [{| Method := "POST";
                               Uri := TrimSuffix url "/" +:+ "/?impID=" +:+ Imp_ID imp;
                               Body := body |}])).
    destruct (loop a request imps _) as [[rs|] errs]; [|done].
    destruct IH as (-> & new & -> & Hall). split; [done|].
    eexists (_ :: new). rewrite <- app_assoc. split; [done|].
    constructor; [|done]. exists p, url. split_and!; try done.
    by eapply getBidderParams_host.
Qed.

(** X13. [MakeRequests] is all or nothing. Either it returns no error and
    one request for each impression, in order: a POST whose address is the
    resolved endpoint of the host of the impression, a non-empty host,
    without a trailing slash and followed by [/?impID=] and the id of the
    impression, and whose body encodes the request with that impression
    alone. Or it returns no request and exactly one error, which is a plain
    error and not a [BadInput], also when [getBidderParams] failed with a
    [BadInput]; for a request without impressions the error says so. *)
Theorem MakeRequests_all_or_nothing (a : Adapter) (request : BidRequest) :
  match MakeRequests Unmarshal_ExtImpBidder Unmarshal_ExtImpGeneric ResolveMacros
          Marshal_BidRequest a request with
  | (Some adapterRequests, errs) =>
      errs = [] ∧ Req_Imp request ≠ []
      ∧ Forall2 (request_for' a request) (Req_Imp request) adapterRequests
  | (None, errs) =>
      (∃ msg, errs = [ErrorString msg])
      ∧ (Req_Imp request = [] → errs = [ErrorString "No imps present in request"])
  end.
Proof.
  unfold MakeRequests. case_bool_decide as Hlen.
  - split; [by eexists|done].
  - pose proof (MakeRequests_loop_spec a request (Req_Imp request) []) as Hloop.
    destruct (loop a request (Req_Imp request) []) as [[rs|] errs].
    + destruct Hloop as (-> & new & -> & Hall). split_and!; [done| |done].
      intros Hnil. rewrite Hnil in Hlen. simpl in Hlen. lia.
    + split; [done|]. intros Hnil. rewrite Hnil in Hlen. simpl in Hlen. lia.
Qed.

End RequestFacts.

(** X17. [getMediaTypeForImp] fails exactly when no impression has the id,
    and the first impression that has it decides: a result found in a list
    stays the result when impressions are appended, and impressions without
    the id in front of a list do not change the result for the list. *)
Theorem getMediaTypeForImp_first_match (impID : string) (imps more : list Imp) :
  (is_Err (getMediaTypeForImp impID imps) ↔ ∀ imp, imp ∈ imps → Imp_ID imp ≠ impID)
  ∧ (∀ bidType, getMediaTypeForImp impID imps = Ok bidType →
                getMediaTypeForImp impID (imps ++ more) = Ok bidType)
  ∧ (is_Err (getMediaTypeForImp impID imps) →
     getMediaTypeForImp impID (imps ++ more) = getMediaTypeForImp impID more).
Proof.
  induction imps as [|imp imps (IHerr & IHok & IHskip)]; cbn [getMediaTypeForImp app].
  - split_and!; [|done|done]. split; [by intros _ imp ?%elem_of_nil|by eexists].
  - case_bool_decide as Hid.
    + split_and!.
      * split.
        -- destruct (Imp_Banner imp), (Imp_Video imp); by intros [? ?].
        -- intros Hall. exfalso. by apply (Hall imp); [left|].
      * done.
      * destruct (Imp_Banner imp), (Imp_Video imp); by intros [? ?].
    + split_and!; [|done|done]. rewrite IHerr. split.
      * intros Hall imp' [->|Hin]%elem_of_cons; auto.
      * intros Hall imp' Hin. apply Hall. by right.
Qed.

Lemma bid_fold_errors (req : BidRequest) (bids : list Bid) :
  ∀ resp errs,
    (foldl (bid_step req) (resp, errs) bids).2
    = errs ++ omap (bid_error (Req_Imp req)) bids.
Proof.
  induction bids as [|bid bids IH]; intros resp errs.
  - simpl. by rewrite app_nil_r.
  - cbn [foldl]. destruct (bid_step req (resp, errs) bid) as [resp' errs'] eqn:Hstep.
    rewrite IH. cbn [omap list_omap]. fold (omap (bid_error (Req_Imp req)) bids).
    unfold bid_step in Hstep. rewrite getMediaTypeForImp_matching in Hstep.
    unfold bid_error at 2.
    destruct (matching_imp (Bid_ImpID bid) (Req_Imp req)) as [imp|];
      injection Hstep as <- <-; [done|].
    by rewrite <- app_assoc.
Qed.

Lemma seat_fold_errors (req : BidRequest) (seats : list SeatBid) :
  ∀ acc,
    (foldl (seat_step req) acc seats).2
    = acc.2 ++ omap (bid_error (Req_Imp req)) (seats ≫= SeatBid_Bid).
Proof.
  induction seats as [|sb seats IH]; intros [resp errs].
  - simpl. by rewrite app_nil_r.
  - cbn [foldl]. rewrite IH. unfold seat_step.
    destruct (foldl (bid_step req) (resp, errs) (SeatBid_Bid sb)) as [resp' errs'] eqn:Hf.
    pose proof (bid_fold_errors req (SeatBid_Bid sb) resp errs) as Hb.
    rewrite Hf in Hb. cbn [snd] in *. subst errs'.
    cbn [mbind list_bind]. fold (seats ≫= SeatBid_Bid).
    by rewrite omap_app, app_assoc.
Qed.

Lemma typed_or_error (imps : list Imp) (bids : list Bid) :
  length (omap (typed_bid imps) bids) + length (omap (bid_error imps) bids)
  = length bids.
Proof.
  induction bids as [|bid bids IH]; [done|].
  cbn [omap list_omap]. fold (omap (typed_bid imps) bids).
  fold (omap (bid_error imps) bids). unfold typed_bid at 1, bid_error at 1.
  destruct (matching_imp (Bid_ImpID bid) imps); simpl; lia.
Qed.

(** X14. On status 200 with a body that decodes, [MakeBids] accounts for
    every bid of the response: a bid that names no impression of the
    request gives one [BadInput] error that names the impression id, in the
    order of the bids, and every other bid is in the response, so the
    returned bids and errors are as many as the bids of the body. *)
Theorem MakeBids_accounts_for_every_bid (internalRequest : BidRequest)
    (externalRequest : RequestData) (response : ResponseData)
    (bidResp : BidResponse) :
  StatusCode response = StatusOK →
  Unmarshal_BidResponse (Resp_Body response) = Ok bidResp →
  ∃ bidResponse errs,
    MakeBids internalRequest externalRequest response = (Some bidResponse, errs)
    ∧ errs = omap (bid_error (Req_Imp internalRequest))
               (Resp_SeatBid bidResp ≫= SeatBid_Bid)
    ∧ length (BidderResponse_Bids bidResponse) + length errs
      = length (Resp_SeatBid bidResp ≫= SeatBid_Bid).
Proof.
  intros Hstatus Hbody. unfold MakeBids. rewrite Hstatus, Hbody.
  rewrite !bool_decide_eq_false_2 by (by compute).
  pose proof (seat_fold internalRequest (Resp_SeatBid bidResp)
                (NewBidderResponseWithBidsCapacity 5, [])) as Hbids.
  pose proof (seat_fold_errors internalRequest (Resp_SeatBid bidResp)
                (NewBidderResponseWithBidsCapacity 5, [])) as Herrs.
  destruct (foldl (seat_step internalRequest) (NewBidderResponseWithBidsCapacity 5, [])
              (Resp_SeatBid bidResp)) as [bidResponse errs].
  cbn [fst snd NewBidderResponseWithBidsCapacity BidderResponse_Bids app] in Hbids, Herrs.
  exists bidResponse, errs. split_and!; [done|done|].
  rewrite Hbids, Herrs. apply typed_or_error.
Qed.

(** The theorem at the response of the examples, for a request with the
    video impression alone: the second bid names an impression the request
    does not have. *)
Lemma MakeBids_accounts_for_every_bid_witness :
  ∃ bidResponse,
    MakeBids (template_request [video_imp]) transport_request (response_with 200)
    = (Some bidResponse,
       [BadInput ("Failed to find impression " +:+ dquote +:+ "imp-1"
                  +:+ dquote +:+ " ")])
    ∧ length (BidderResponse_Bids bidResponse) = 1.
Proof.
  destruct (Unmarshal_BidResponse (Resp_Body (response_with 200))) as [bidResp|]
    eqn:Hbody; [|vm_compute in Hbody; discriminate Hbody].
  destruct (MakeBids_accounts_for_every_bid (template_request [video_imp])
              transport_request (response_with 200) bidResp eq_refl Hbody)
    as (bidResponse & errs & Hrun & Herrs & Hcount).
  vm_compute in Hbody. injection Hbody as <-.
  exists bidResponse.
  assert (errs = [BadInput ("Failed to find impression " +:+ dquote +:+ "imp-1"
                            +:+ dquote +:+ " ")]) as Heq.
  { rewrite Herrs. vm_compute. reflexivity. }
  rewrite Heq in Hrun, Hcount. split; [exact Hrun|].
  change (length (BidderResponse_Bids bidResponse) + 1 = 2) in Hcount. lia.
Defined.
